(** * CurieBle [ble_client.c]: the synchronous-over-asynchronous client layer

    A shallow embedding of [libraries/CurieBle/src/internal/ble_client.c]:
    the message dispatcher [ble_core_client_handle_message] with its
    per-kind handlers, the busy-wait macro [wait_for_condition], and the
    public [ble_client_*] operations built from them.

    The C file keeps its state in file-level variables and talks to three
    outside parties: the 32 kHz uptime counter, the CFW messaging substrate
    and the subscriber callbacks.  Here the file-level variables are the
    fields of a [World] record that every function threads through, and the
    outside parties are the fields of an [Environment] the development is
    parameterised by. *)

From stdpp Require Import base numbers option list gmap.

Local Open Scope Z_scope.

(** ** Status codes *)

(** Modelled from the spec: the [BLE_STATUS_*] enumeration is declared in a
    header that is not part of this file.  The file names four of its
    members and passes every other value through untouched, so the
    taxonomy is Success, Timeout, GenericError, WrongState and an opaque
    remote-reported failure code.  Success is the zero value: the file
    tests it both as [BLE_STATUS_SUCCESS == x] and as [if (x)]. *)
Inductive BleStatus : Type :=
  | BLE_STATUS_SUCCESS
  | BLE_STATUS_TIMEOUT
  | BLE_STATUS_ERROR
  | BLE_STATUS_WRONG_STATE
  | BLE_STATUS_REMOTE (code : Z).

#[global] Instance BleStatus_eq_dec : EqDecision BleStatus.
Proof. solve_decision. Defined.

(** [if (x)] on a status: true for every value but Success. *)
Definition nonzero (s : BleStatus) : bool :=
  match s with
  | BLE_STATUS_SUCCESS => false
  | _ => true
  end.

(** ** Payload types *)

(** Modelled from the spec: [ble_addr_t] (the local device address, a type
    tag and the address bytes) is declared outside this file. *)
Record ble_addr_t : Type := { addr_type : Z; addr : list Z }.

(** Modelled from the spec: [struct ble_gatts_char_handles], the handle set
    a new characteristic is given (its value handle and its CCCD handle),
    is declared outside this file. *)
Record ble_gatts_char_handles : Type := { value_handle : Z; cccd_handle : Z }.

(** Reason carried by a GAP timeout event.  The file names two reasons;
    any other stored value is [TO_OTHER]. *)
Inductive timeout_reason : Type :=
  | BLE_SVC_GAP_TO_ADV
  | BLE_SVC_GAP_TO_CONN
  | TO_OTHER (code : Z).

(** [struct ble_gap_event], as far as this file reads it. *)
Record ble_gap_event : Type :=
  { evt_conn_handle : Z; evt_timeout_reason : timeout_reason; evt_raw : list Z }.

(** [struct ble_gatts_evt_msg] is only forwarded: its raw bytes. *)
Record ble_gatts_evt_msg : Type := { gatts_raw : list Z }.

#[global] Instance ble_addr_t_eq_dec : EqDecision ble_addr_t.
Proof. solve_decision. Defined.
#[global] Instance ble_gatts_char_handles_eq_dec : EqDecision ble_gatts_char_handles.
Proof. solve_decision. Defined.
#[global] Instance timeout_reason_eq_dec : EqDecision timeout_reason.
Proof. solve_decision. Defined.
#[global] Instance ble_gap_event_eq_dec : EqDecision ble_gap_event.
Proof. solve_decision. Defined.
#[global] Instance ble_gatts_evt_msg_eq_dec : EqDecision ble_gatts_evt_msg.
Proof. solve_decision. Defined.

(** ** Inbound messages

    [CFW_MESSAGE_ID(msg)] selects the struct the dispatcher casts the
    message to; a message is its kind together with the fields the handler
    of that kind reads.  [MSG_ID_OTHER] stands for every identifier that
    has no [case] label in the dispatcher. *)
Inductive cfw_message : Type :=
  | MSG_ID_CFW_SVC_AVAIL_EVT (service_id : Z)
  | MSG_ID_CFW_OPEN_SERVICE (rsp_client_handle : Z)
  | MSG_ID_BLE_GAP_WR_CONF_RSP (rsp_status : BleStatus)
  | MSG_ID_BLE_GAP_RD_BDA_RSP (rsp_status : BleStatus) (bd : ble_addr_t)
  | MSG_ID_BLE_GAP_SM_CONFIG_RSP (rsp_status : BleStatus)
  | MSG_ID_BLE_GAP_WR_ADV_DATA_RSP (rsp_status : BleStatus)
  | MSG_ID_BLE_GAP_ENABLE_ADV_RSP (rsp_status : BleStatus)
  | MSG_ID_BLE_GAP_DISABLE_ADV_RSP (rsp_status : BleStatus)
  | MSG_ID_BLE_GATTS_ADD_SERVICE_RSP (rsp_status : BleStatus) (svc_handle : Z)
  | MSG_ID_BLE_GATTS_ADD_CHARACTERISTIC_RSP
      (rsp_status : BleStatus) (char_h : ble_gatts_char_handles)
  | MSG_ID_BLE_GATTS_ADD_DESCRIPTOR_RSP (rsp_status : BleStatus) (handle : Z)
  | MSG_ID_BLE_GATTS_SET_ATTRIBUTE_VALUE_RSP (rsp_status : BleStatus)
  | MSG_ID_BLE_GATTS_SEND_NOTIF_RSP (rsp_status : BleStatus)
  | MSG_ID_BLE_GATTS_SEND_IND_RSP (rsp_status : BleStatus)
  | MSG_ID_BLE_GAP_CONNECT_EVT (evt : ble_gap_event)
  | MSG_ID_BLE_GAP_DISCONNECT_EVT (evt : ble_gap_event)
  | MSG_ID_BLE_GAP_TO_EVT (evt : ble_gap_event)
  | MSG_ID_BLE_GAP_RSSI_EVT (evt : ble_gap_event)
  | MSG_ID_BLE_GATTS_WRITE_EVT (wevt : ble_gatts_evt_msg)
  | MSG_ID_BLE_GAP_DISCONNECT_RSP (rsp_status : BleStatus)
  | MSG_ID_BLE_GAP_SET_RSSI_REPORT_RSP (rsp_status : BleStatus)
  | MSG_ID_OTHER (id : Z).

#[global] Instance cfw_message_eq_dec : EqDecision cfw_message.
Proof. solve_decision. Defined.

(** Tags handed to the subscribers. *)
Inductive ble_client_gap_event_t : Type :=
  | BLE_CLIENT_GAP_EVENT_CONNECTED
  | BLE_CLIENT_GAP_EVENT_DISCONNECTED
  | BLE_CLIENT_GAP_EVENT_ADV_TIMEOUT
  | BLE_CLIENT_GAP_EVENT_CONN_TIMEOUT
  | BLE_CLIENT_GAP_EVENT_RSSI.

Inductive ble_client_gatts_event_t : Type :=
  | BLE_CLIENT_GATTS_EVENT_WRITE.

(** ** Outbound requests *)

(** The C macro [MSEC_TO_UNITS]; [/] on non-negative [int] is [Z.div]. *)
Definition MSEC_TO_UNITS (TIME RESOLUTION : Z) : Z := (TIME * 1000) / RESOLUTION.

Definition UNIT_0_625_MS : Z := 625.
Definition UNIT_1_25_MS : Z := 1250.
Definition UNIT_10_MS : Z := 10000.

Definition MIN_CONN_INTERVAL : Z := MSEC_TO_UNITS 80 UNIT_1_25_MS.
Definition MAX_CONN_INTERVAL : Z := MSEC_TO_UNITS 150 UNIT_1_25_MS.
Definition SLAVE_LATENCY : Z := 0.
Definition CONN_SUP_TIMEOUT : Z := MSEC_TO_UNITS 6000 UNIT_10_MS.

Definition BLE_GAP_ADV_TYPE_ADV_IND : Z := 0.
Definition BLE_GAP_ADV_FP_ANY : Z := 0.
Definition APP_ULTRA_FAST_ADV_INTERVAL : Z := 32.

(** The null pointer. *)
Definition NULL : Z := 0.

Record ble_gap_connection_params : Type :=
  { interval_min : Z; interval_max : Z; slave_latency : Z; link_sup_to : Z }.

Record ble_wr_config : Type :=
  { p_bda : Z; p_name : Z; appearance : Z; tx_power : Z;
    peripheral_conn_params : ble_gap_connection_params;
    central_conn_params : ble_gap_connection_params }.

(** Named option values of headers outside this file, kept as names. *)
Inductive sm_option : Type := BLE_GAP_BONDING.
Inductive sm_io_caps : Type := BLE_GAP_IO_NO_INPUT_NO_OUTPUT.
Inductive adv_option : Type := BLE_GAP_OPT_ADV_DEFAULT.
Inductive rssi_op : Type := BLE_GAP_RSSI_DISABLE_REPORT | BLE_GAP_RSSI_ENABLE_REPORT.

Record ble_gap_sm_config_params : Type :=
  { sm_options : sm_option; io_caps : sm_io_caps; key_size : Z }.

Record ble_gap_adv_param_t : Type :=
  { adv_timeout : Z; adv_interval_min : Z; adv_interval_max : Z; adv_type : Z;
    filter_policy : Z; p_peer_bda : Z; adv_options : adv_option }.

Record ble_gap_adv_rsp_data : Type := { p_data : Z; len : Z }.

Record ble_gatts_ind_params_t : Type :=
  { val_handle : Z; ind_len : Z; ind_p_data : Z; ind_offset : Z }.

(** One constructor per substrate entry point this file calls, with the
    arguments it passes (the trailing private-data [NULL]s left out). *)
Inductive request : Type :=
  | cfw_register_svc_available (h : Z) (service_id : Z)
  | cfw_open_service (h : Z) (service_id : Z)
  | ble_gap_set_enable_config (svc : Z) (config : ble_wr_config)
  | ble_gap_sm_config (svc : Z) (sm_params : ble_gap_sm_config_params)
  | ble_gap_read_bda (svc : Z)
  | ble_gap_wr_adv_data (svc : Z) (adv_rsp_data : ble_gap_adv_rsp_data)
  | ble_gap_start_advertise (svc : Z) (adv_params : ble_gap_adv_param_t)
  | ble_gap_stop_advertise (svc : Z)
  | ble_gatts_add_service (svc : Z) (uuid : Z) (type : Z)
  | ble_gatts_add_included_svc (svc : Z) (primary included : Z)
  | ble_gatts_add_characteristic (svc : Z) (svc_handle : Z) (char_data : Z)
  | ble_gatts_add_descriptor (svc : Z) (desc : Z)
  | ble_gatts_set_attribute_value (svc : Z) (value_handle len p_value offset : Z)
  | ble_gatts_send_ind (svc : Z) (conn : Z) (ind_params : ble_gatts_ind_params_t)
  | ble_gatts_send_notif (svc : Z) (conn : Z) (ind_params : ble_gatts_ind_params_t)
  | ble_gap_disconnect (svc : Z) (conn : Z) (reason : Z)
  | ble_gap_set_rssi_report (svc : Z) (conn : Z) (op : rssi_op).

(** ** The world *)

(** What a caller-supplied destination can hold. *)
Inductive object : Type :=
  | ObjAddr (bd : ble_addr_t)
  | ObjU16 (v : Z)
  | ObjCharHandles (h : ble_gatts_char_handles).

(** Everything the file does to the outside, in the order it happens. *)
Inductive effect : Type :=
  | PlatformInit
  | CfwInit
  | Submitted (r : request)
  | GapEventCb (fn : Z) (tag : ble_client_gap_event_t) (evt : ble_gap_event) (user : Z)
  | GattsEventCb (fn : Z) (tag : ble_client_gatts_event_t) (evt : ble_gatts_evt_msg) (user : Z)
  | MsgFree (msg : cfw_message).

(** [struct cfw_msg_rsp_sync]: the pending-request slot. *)
Record cfw_msg_rsp_sync : Type :=
  { response : Z; status : BleStatus; param : Z }.

(** The file-level variables, caller memory, the effects so far, and how
    often the clock and the completion flag have been read. *)
Record World : Type :=
  { client_handle : Z;
    service_handle : Z;
    conn_handle : Z;
    connected : bool;
    ble_client_gap_event_cb : Z;
    ble_client_gap_event_param : Z;
    ble_client_gatts_event_cb : Z;
    ble_client_gatts_event_param : Z;
    sync : cfw_msg_rsp_sync;
    mem : gmap Z object;
    trace : list effect;
    clock_reads : nat;
    polls : nat }.

(** The outside parties.
    - [uptime n]: what the [n]-th call of [get_uptime_32k] returns (taken
      modulo [2^32], the counter being 32 bits wide);
    - [inbound n]: the messages the substrate hands to the dispatcher
      between the previous and the [n]-th read of [sync.response] by a
      waiting caller;
    - [submit_rc]: the substrate's immediate answer to a request, which may
      depend on everything that happened before;
    - [cfw_init_handle]: the client handle [cfw_init] returns;
    - [gap_cb_code], [gatts_cb_code]: the code behind a callback pointer.
      A callback sees the world it is called in and leaves caller memory
      behind; the file's own variables are [static] and out of its reach. *)
Record Environment : Type :=
  { uptime : nat -> Z;
    inbound : nat -> list cfw_message;
    submit_rc : list effect -> request -> BleStatus;
    cfw_init_handle : Z;
    BLE_CORE_SERVICE_ID : Z;
    gap_cb_code : Z -> ble_client_gap_event_t -> ble_gap_event -> Z -> World -> gmap Z object;
    gatts_cb_code : Z -> ble_client_gatts_event_t -> ble_gatts_evt_msg -> Z -> World -> gmap Z object }.

(** ** Assignments to the file-level variables *)

Definition set_client_handle (v : Z) (w : World) : World :=
  {| client_handle := v; service_handle := service_handle w;
     conn_handle := conn_handle w; connected := connected w;
     ble_client_gap_event_cb := ble_client_gap_event_cb w;
     ble_client_gap_event_param := ble_client_gap_event_param w;
     ble_client_gatts_event_cb := ble_client_gatts_event_cb w;
     ble_client_gatts_event_param := ble_client_gatts_event_param w;
     sync := sync w; mem := mem w; trace := trace w;
     clock_reads := clock_reads w; polls := polls w |}.

Definition set_service_handle (v : Z) (w : World) : World :=
  {| client_handle := client_handle w; service_handle := v;
     conn_handle := conn_handle w; connected := connected w;
     ble_client_gap_event_cb := ble_client_gap_event_cb w;
     ble_client_gap_event_param := ble_client_gap_event_param w;
     ble_client_gatts_event_cb := ble_client_gatts_event_cb w;
     ble_client_gatts_event_param := ble_client_gatts_event_param w;
     sync := sync w; mem := mem w; trace := trace w;
     clock_reads := clock_reads w; polls := polls w |}.

Definition set_conn_handle (v : Z) (w : World) : World :=
  {| client_handle := client_handle w; service_handle := service_handle w;
     conn_handle := v; connected := connected w;
     ble_client_gap_event_cb := ble_client_gap_event_cb w;
     ble_client_gap_event_param := ble_client_gap_event_param w;
     ble_client_gatts_event_cb := ble_client_gatts_event_cb w;
     ble_client_gatts_event_param := ble_client_gatts_event_param w;
     sync := sync w; mem := mem w; trace := trace w;
     clock_reads := clock_reads w; polls := polls w |}.

Definition set_connected (v : bool) (w : World) : World :=
  {| client_handle := client_handle w; service_handle := service_handle w;
     conn_handle := conn_handle w; connected := v;
     ble_client_gap_event_cb := ble_client_gap_event_cb w;
     ble_client_gap_event_param := ble_client_gap_event_param w;
     ble_client_gatts_event_cb := ble_client_gatts_event_cb w;
     ble_client_gatts_event_param := ble_client_gatts_event_param w;
     sync := sync w; mem := mem w; trace := trace w;
     clock_reads := clock_reads w; polls := polls w |}.

(** The four assignments that end [ble_client_init]. *)
Definition set_callbacks (gap_cb gap_param gatts_cb gatts_param : Z) (w : World) : World :=
  {| client_handle := client_handle w; service_handle := service_handle w;
     conn_handle := conn_handle w; connected := connected w;
     ble_client_gap_event_cb := gap_cb;
     ble_client_gap_event_param := gap_param;
     ble_client_gatts_event_cb := gatts_cb;
     ble_client_gatts_event_param := gatts_param;
     sync := sync w; mem := mem w; trace := trace w;
     clock_reads := clock_reads w; polls := polls w |}.

Definition set_sync (v : cfw_msg_rsp_sync) (w : World) : World :=
  {| client_handle := client_handle w; service_handle := service_handle w;
     conn_handle := conn_handle w; connected := connected w;
     ble_client_gap_event_cb := ble_client_gap_event_cb w;
     ble_client_gap_event_param := ble_client_gap_event_param w;
     ble_client_gatts_event_cb := ble_client_gatts_event_cb w;
     ble_client_gatts_event_param := ble_client_gatts_event_param w;
     sync := v; mem := mem w; trace := trace w;
     clock_reads := clock_reads w; polls := polls w |}.

Definition set_mem (v : gmap Z object) (w : World) : World :=
  {| client_handle := client_handle w; service_handle := service_handle w;
     conn_handle := conn_handle w; connected := connected w;
     ble_client_gap_event_cb := ble_client_gap_event_cb w;
     ble_client_gap_event_param := ble_client_gap_event_param w;
     ble_client_gatts_event_cb := ble_client_gatts_event_cb w;
     ble_client_gatts_event_param := ble_client_gatts_event_param w;
     sync := sync w; mem := v; trace := trace w;
     clock_reads := clock_reads w; polls := polls w |}.

(** Append one effect to the record of what happened. *)
Definition emit (e : effect) (w : World) : World :=
  {| client_handle := client_handle w; service_handle := service_handle w;
     conn_handle := conn_handle w; connected := connected w;
     ble_client_gap_event_cb := ble_client_gap_event_cb w;
     ble_client_gap_event_param := ble_client_gap_event_param w;
     ble_client_gatts_event_cb := ble_client_gatts_event_cb w;
     ble_client_gatts_event_param := ble_client_gatts_event_param w;
     sync := sync w; mem := mem w; trace := trace w ++ [e];
     clock_reads := clock_reads w; polls := polls w |}.

Definition tick_clock (w : World) : World :=
  {| client_handle := client_handle w; service_handle := service_handle w;
     conn_handle := conn_handle w; connected := connected w;
     ble_client_gap_event_cb := ble_client_gap_event_cb w;
     ble_client_gap_event_param := ble_client_gap_event_param w;
     ble_client_gatts_event_cb := ble_client_gatts_event_cb w;
     ble_client_gatts_event_param := ble_client_gatts_event_param w;
     sync := sync w; mem := mem w; trace := trace w;
     clock_reads := S (clock_reads w); polls := polls w |}.

Definition tick_poll (w : World) : World :=
  {| client_handle := client_handle w; service_handle := service_handle w;
     conn_handle := conn_handle w; connected := connected w;
     ble_client_gap_event_cb := ble_client_gap_event_cb w;
     ble_client_gap_event_param := ble_client_gap_event_param w;
     ble_client_gatts_event_cb := ble_client_gatts_event_cb w;
     ble_client_gatts_event_param := ble_client_gatts_event_param w;
     sync := sync w; mem := mem w; trace := trace w;
     clock_reads := clock_reads w; polls := S (polls w) |}.

(** [sync.response = v], [sync.status = v], [sync.param = v]. *)
Definition set_sync_response (v : Z) (w : World) : World :=
  set_sync {| response := v; status := status (sync w); param := param (sync w) |} w.

Definition set_sync_status (v : BleStatus) (w : World) : World :=
  set_sync {| response := response (sync w); status := v; param := param (sync w) |} w.

Definition set_sync_param (v : Z) (w : World) : World :=
  set_sync {| response := response (sync w); status := status (sync w); param := v |} w.

(** [*p = v] and [memcpy(p, &v, sizeof( *p))] on a caller-supplied
    destination: the whole object at [p] is replaced.  Memory is a store of
    typed objects, so this is the C assignment when the object at [p] has
    the type the handler casts [sync.param] to; a destination of another
    type, which the C code would overrun or fill in part, is outside what
    this store describes. *)
Definition store (p : Z) (v : object) (w : World) : World :=
  set_mem (<[p := v]> (mem w)) w.

(** The world at program start: C zero-initialises file-level variables. *)
Definition boot (m : gmap Z object) : World :=
  {| client_handle := NULL; service_handle := NULL;
     conn_handle := 0; connected := false;
     ble_client_gap_event_cb := NULL; ble_client_gap_event_param := NULL;
     ble_client_gatts_event_cb := NULL; ble_client_gatts_event_param := NULL;
     sync := {| response := 0; status := BLE_STATUS_SUCCESS; param := NULL |};
     mem := m; trace := []; clock_reads := 0%nat; polls := 0%nat |}.

Section BleClient.

Variable env : Environment.

(** ** Response and event handlers *)

Definition handle_msg_id_cfw_svc_avail_evt (service_id : Z) (w : World) : World :=
  if decide (service_id = BLE_CORE_SERVICE_ID env) then
    set_sync_response 1 (set_sync_status BLE_STATUS_SUCCESS w)
  else w.

Definition handle_msg_id_cfw_open_svc (rsp_client_handle : Z) (w : World) : World :=
  let w := set_service_handle rsp_client_handle w in
  set_sync_response 1 (set_sync_status BLE_STATUS_SUCCESS w).

Definition handle_msg_id_ble_gap_wr_conf_rsp (rsp_status : BleStatus) (w : World) : World :=
  set_sync_response 1 (set_sync_status rsp_status w).

Definition handle_msg_id_ble_gap_rd_bda_rsp
    (rsp_status : BleStatus) (bd : ble_addr_t) (w : World) : World :=
  let p_bda := param (sync w) in
  let w :=
    if negb (p_bda =? NULL) && bool_decide (BLE_STATUS_SUCCESS = rsp_status)
    then store p_bda (ObjAddr bd) w else w in
  set_sync_response 1 (set_sync_status rsp_status w).

Definition handle_msg_id_ble_gap_sm_config_rsp (rsp_status : BleStatus) (w : World) : World :=
  set_sync_response 1 (set_sync_status rsp_status w).

Definition handle_msg_id_ble_gap_wr_adv_data_rsp (rsp_status : BleStatus) (w : World) : World :=
  set_sync_response 1 (set_sync_status rsp_status w).

(** No waiting for this response, so nothing to do here. *)
Definition handle_msg_id_ble_gap_enable_adv_rsp (rsp_status : BleStatus) (w : World) : World :=
  w.

Definition handle_msg_id_ble_gap_disable_adv_rsp (rsp_status : BleStatus) (w : World) : World :=
  w.

Definition handle_msg_id_gatts_add_service_rsp
    (rsp_status : BleStatus) (svc_handle : Z) (w : World) : World :=
  let p_svc_handle := param (sync w) in
  let w :=
    if negb (p_svc_handle =? NULL) && bool_decide (BLE_STATUS_SUCCESS = rsp_status)
    then store p_svc_handle (ObjU16 svc_handle) w else w in
  set_sync_response 1 (set_sync_status rsp_status w).

Definition handle_msg_id_gatts_add_characteristic_rsp
    (rsp_status : BleStatus) (char_h : ble_gatts_char_handles) (w : World) : World :=
  let p_handles := param (sync w) in
  let w :=
    if negb (p_handles =? NULL) && bool_decide (BLE_STATUS_SUCCESS = rsp_status)
    then store p_handles (ObjCharHandles char_h) w else w in
  set_sync_response 1 (set_sync_status rsp_status w).

Definition handle_msg_id_gatts_add_desc_rsp
    (rsp_status : BleStatus) (handle : Z) (w : World) : World :=
  let p_handle := param (sync w) in
  let w :=
    if negb (p_handle =? NULL) && bool_decide (BLE_STATUS_SUCCESS = rsp_status)
    then store p_handle (ObjU16 handle) w else w in
  set_sync_response 1 (set_sync_status rsp_status w).

Definition handle_msg_id_ble_gatts_set_attribute_value_rsp
    (rsp_status : BleStatus) (w : World) : World :=
  set_sync_response 1 (set_sync_status rsp_status w).

(** A call through the GAP callback pointer [fn]: the call is recorded and
    the callback's code runs in the world as it is at the call.  The
    callback is taken to act on caller memory only: a subscriber that calls
    back into this file (the source allows [ble_client_gap_start_advertise]
    from the disconnect handler) or writes [sync] is outside what this
    describes, and the statements below that depend on it say so. *)
Definition call_gap_event_cb
    (fn : Z) (tag : ble_client_gap_event_t) (evt : ble_gap_event) (user : Z)
    (w : World) : World :=
  set_mem (gap_cb_code env fn tag evt user w) (emit (GapEventCb fn tag evt user) w).

(** The same for the GATT server callback pointer. *)
Definition call_gatts_event_cb
    (fn : Z) (tag : ble_client_gatts_event_t) (evt : ble_gatts_evt_msg) (user : Z)
    (w : World) : World :=
  set_mem (gatts_cb_code env fn tag evt user w) (emit (GattsEventCb fn tag evt user) w).

Definition handle_msg_id_ble_gap_connect_evt_msg (evt : ble_gap_event) (w : World) : World :=
  let w := set_conn_handle (evt_conn_handle evt) w in
  let w := set_connected true w in
  if negb (ble_client_gap_event_cb w =? NULL) then
    call_gap_event_cb (ble_client_gap_event_cb w) BLE_CLIENT_GAP_EVENT_CONNECTED evt
      (ble_client_gap_event_param w) w
  else w.

Definition handle_msg_id_ble_gap_disconnect_evt_msg (evt : ble_gap_event) (w : World) : World :=
  let w := set_connected false w in
  if negb (ble_client_gap_event_cb w =? NULL) then
    call_gap_event_cb (ble_client_gap_event_cb w) BLE_CLIENT_GAP_EVENT_DISCONNECTED evt
      (ble_client_gap_event_param w) w
  else w.

Definition handle_msg_id_ble_gap_timeout_evt_msg (evt : ble_gap_event) (w : World) : World :=
  let w := set_connected false w in
  if ble_client_gap_event_cb w =? NULL then w
  else
    match evt_timeout_reason evt with
    | BLE_SVC_GAP_TO_ADV =>
        call_gap_event_cb (ble_client_gap_event_cb w) BLE_CLIENT_GAP_EVENT_ADV_TIMEOUT evt
          (ble_client_gap_event_param w) w
    | BLE_SVC_GAP_TO_CONN =>
        call_gap_event_cb (ble_client_gap_event_cb w) BLE_CLIENT_GAP_EVENT_CONN_TIMEOUT evt
          (ble_client_gap_event_param w) w
    | TO_OTHER _ => w
    end.

Definition handle_msg_id_ble_gap_rssi_evt_msg (evt : ble_gap_event) (w : World) : World :=
  if negb (ble_client_gap_event_cb w =? NULL) then
    call_gap_event_cb (ble_client_gap_event_cb w) BLE_CLIENT_GAP_EVENT_RSSI evt
      (ble_client_gap_event_param w) w
  else w.

Definition handle_msg_id_ble_gatts_write_evt_msg (evt : ble_gatts_evt_msg) (w : World) : World :=
  if negb (ble_client_gatts_event_cb w =? NULL) then
    call_gatts_event_cb (ble_client_gatts_event_cb w) BLE_CLIENT_GATTS_EVENT_WRITE evt
      (ble_client_gatts_event_param w) w
  else w.

Definition handle_msg_id_ble_gatts_send_notif_ind_rsp (rsp_status : BleStatus) (w : World) : World :=
  set_sync_response 1 (set_sync_status rsp_status w).

Definition handle_msg_id_ble_gap_disconnect_rsp (rsp_status : BleStatus) (w : World) : World :=
  set_sync_response 1 (set_sync_status rsp_status w).

Definition handle_msg_id_ble_gap_set_rssi_report_rsp (rsp_status : BleStatus) (w : World) : World :=
  set_sync_response 1 (set_sync_status rsp_status w).

(** [cfw_msg_free(msg)]. *)
Definition cfw_msg_free (msg : cfw_message) (w : World) : World :=
  emit (MsgFree msg) w.

(** ** The dispatcher *)

Definition ble_core_client_handle_message (msg : cfw_message) (w : World) : World :=
  let w :=
    match msg with
    | MSG_ID_CFW_SVC_AVAIL_EVT service_id => handle_msg_id_cfw_svc_avail_evt service_id w
    | MSG_ID_CFW_OPEN_SERVICE h => handle_msg_id_cfw_open_svc h w
    | MSG_ID_BLE_GAP_WR_CONF_RSP s => handle_msg_id_ble_gap_wr_conf_rsp s w
    | MSG_ID_BLE_GAP_RD_BDA_RSP s bd => handle_msg_id_ble_gap_rd_bda_rsp s bd w
    | MSG_ID_BLE_GAP_SM_CONFIG_RSP s => handle_msg_id_ble_gap_sm_config_rsp s w
    | MSG_ID_BLE_GAP_WR_ADV_DATA_RSP s => handle_msg_id_ble_gap_wr_adv_data_rsp s w
    | MSG_ID_BLE_GAP_ENABLE_ADV_RSP s => handle_msg_id_ble_gap_enable_adv_rsp s w
    | MSG_ID_BLE_GAP_DISABLE_ADV_RSP s => handle_msg_id_ble_gap_disable_adv_rsp s w
    | MSG_ID_BLE_GATTS_ADD_SERVICE_RSP s h => handle_msg_id_gatts_add_service_rsp s h w
    | MSG_ID_BLE_GATTS_ADD_CHARACTERISTIC_RSP s h =>
        handle_msg_id_gatts_add_characteristic_rsp s h w
    | MSG_ID_BLE_GATTS_ADD_DESCRIPTOR_RSP s h => handle_msg_id_gatts_add_desc_rsp s h w
    | MSG_ID_BLE_GATTS_SET_ATTRIBUTE_VALUE_RSP s =>
        handle_msg_id_ble_gatts_set_attribute_value_rsp s w
    | MSG_ID_BLE_GATTS_SEND_NOTIF_RSP s
    | MSG_ID_BLE_GATTS_SEND_IND_RSP s => handle_msg_id_ble_gatts_send_notif_ind_rsp s w
    | MSG_ID_BLE_GAP_CONNECT_EVT evt => handle_msg_id_ble_gap_connect_evt_msg evt w
    | MSG_ID_BLE_GAP_DISCONNECT_EVT evt => handle_msg_id_ble_gap_disconnect_evt_msg evt w
    | MSG_ID_BLE_GAP_TO_EVT evt => handle_msg_id_ble_gap_timeout_evt_msg evt w
    | MSG_ID_BLE_GAP_RSSI_EVT evt => handle_msg_id_ble_gap_rssi_evt_msg evt w
    | MSG_ID_BLE_GATTS_WRITE_EVT evt => handle_msg_id_ble_gatts_write_evt_msg evt w
    | MSG_ID_BLE_GAP_DISCONNECT_RSP s => handle_msg_id_ble_gap_disconnect_rsp s w
    | MSG_ID_BLE_GAP_SET_RSSI_REPORT_RSP s => handle_msg_id_ble_gap_set_rssi_report_rsp s w
    | MSG_ID_OTHER _ => w
    end in
  cfw_msg_free msg w.


(** ** The clock and the substrate *)

(** Reduction of an [unsigned] / [uint32_t] value. *)
Definition u32 (z : Z) : Z := z mod 2 ^ 32.

(** [get_uptime_32k()]: the next reading of the 32 kHz counter. *)
Definition get_uptime_32k (w : World) : Z * World :=
  (u32 (uptime env (clock_reads w)), tick_clock w).

(** A call into the substrate: the request is handed over and the
    substrate's immediate answer comes back. *)
Definition submit (r : request) (w : World) : BleStatus * World :=
  (submit_rc env (trace w) r, emit (Submitted r) w).

(** The dispatcher runs in the substrate's context.  Whatever it was
    handed since the waiting caller last looked is handled, message by
    message, before the caller reads [sync.response] again. *)
Definition deliver (w : World) : World :=
  foldl (fun w msg => ble_core_client_handle_message msg w) (tick_poll w)
        (inbound env (polls w)).

(** ** [wait_for_condition]

    The loop of the macro, with [cond] the volatile read of
    [sync.response].  [fuel] bounds the number of iterations; [None] means
    the loop was still running when the fuel ran out. *)
Fixpoint wait_loop (fuel : nat) (timeout : Z) (w : World) : option (BleStatus * World) :=
  match fuel with
  | O => None
  | S fuel =>
      let w := deliver w in
      if negb (response (sync w) =? 0) then Some (BLE_STATUS_SUCCESS, w)
      else
        let '(now, w) := get_uptime_32k w in
        if now >? timeout then Some (BLE_STATUS_TIMEOUT, w)
        else wait_loop fuel timeout w
  end.

Definition wait_for_condition (fuel : nat) (w : World) : option (BleStatus * World) :=
  let '(now, w) := get_uptime_32k w in
  let timeout := u32 (now + 32768) in
  wait_loop fuel timeout w.

(** [while (get_uptime_32k() < delay_until);] *)
Fixpoint delay_loop (fuel : nat) (delay_until : Z) (w : World) : option World :=
  match fuel with
  | O => None
  | S fuel =>
      let '(now, w) := get_uptime_32k w in
      if now <? delay_until then delay_loop fuel delay_until w else Some w
  end.

(** The tail shared by every blocking operation:
    [wait_for_condition(sync.response, status);
     if (status != BLE_STATUS_SUCCESS) return status;
     return sync.status;] *)
Definition wait_and_harvest (fuel : nat) (w : World) : option (BleStatus * World) :=
  '(sts, w) ← wait_for_condition fuel w;
  if bool_decide (sts ≠ BLE_STATUS_SUCCESS) then Some (sts, w)
  else Some (status (sync w), w).

(** ** The public operations *)

Definition ble_client_init (fuel : nat) (gap_event_cb gap_event_param
    gatts_event_cb gatts_event_param : Z) (w : World) : option (BleStatus * World) :=
  let w := emit PlatformInit w in
  let w := set_client_handle (cfw_init_handle env) (emit CfwInit w) in
  let w := set_sync_response 0 w in
  let '(rc, w) := submit (cfw_register_svc_available (client_handle w)
                            (BLE_CORE_SERVICE_ID env)) w in
  if nonzero rc then Some (BLE_STATUS_ERROR, w)
  else
    '(sts, w) ← wait_for_condition fuel w;
    if bool_decide (sts ≠ BLE_STATUS_SUCCESS) then Some (sts, w)
    else
      let '(now, w) := get_uptime_32k w in
      let delay_until := u32 (now + 32) in
      w ← delay_loop fuel delay_until w;
      let w := set_sync_response 0 w in
      let '(_, w) := submit (cfw_open_service (client_handle w)
                               (BLE_CORE_SERVICE_ID env)) w in
      '(sts, w) ← wait_for_condition fuel w;
      if bool_decide (sts ≠ BLE_STATUS_SUCCESS) then Some (sts, w)
      else
        let w := set_callbacks gap_event_cb gap_event_param
                   gatts_event_cb gatts_event_param w in
        Some (status (sync w), w).

Definition ble_client_gap_set_enable_config (fuel : nat) (name appearance tx_power : Z)
    (w : World) : option (BleStatus * World) :=
  let conn_params :=
    {| interval_min := MIN_CONN_INTERVAL; interval_max := MAX_CONN_INTERVAL;
       slave_latency := SLAVE_LATENCY; link_sup_to := CONN_SUP_TIMEOUT |} in
  let config :=
    {| p_bda := NULL; p_name := name; appearance := appearance; tx_power := tx_power;
       peripheral_conn_params := conn_params; central_conn_params := conn_params |} in
  let w := set_sync_response 0 w in
  let '(rc, w) := submit (ble_gap_set_enable_config (service_handle w) config) w in
  if nonzero rc then Some (BLE_STATUS_ERROR, w)
  else
    '(sts, w) ← wait_for_condition fuel w;
    if bool_decide (sts ≠ BLE_STATUS_SUCCESS) then Some (sts, w)
    else if nonzero (status (sync w)) then Some (status (sync w), w)
    else
      let sm_params :=
        {| sm_options := BLE_GAP_BONDING; io_caps := BLE_GAP_IO_NO_INPUT_NO_OUTPUT;
           key_size := 16 |} in
      let w := set_sync_response 0 w in
      let '(rc, w) := submit (ble_gap_sm_config (service_handle w) sm_params) w in
      if nonzero rc then Some (BLE_STATUS_ERROR, w)
      else wait_and_harvest fuel w.

Definition ble_client_gap_get_bda (fuel : nat) (p_bda : Z) (w : World)
    : option (BleStatus * World) :=
  let w := set_sync_response 0 w in
  let w := set_sync_param p_bda w in
  let '(rc, w) := submit (ble_gap_read_bda (service_handle w)) w in
  if nonzero rc then Some (BLE_STATUS_ERROR, w)
  else wait_and_harvest fuel w.

Definition ble_client_gap_wr_adv_data (fuel : nat) (adv_data adv_data_len : Z) (w : World)
    : option (BleStatus * World) :=
  let adv_rsp_data := {| p_data := adv_data; len := adv_data_len |} in
  let w := set_sync_response 0 w in
  let '(rc, w) := submit (ble_gap_wr_adv_data (service_handle w) adv_rsp_data) w in
  if nonzero rc then Some (BLE_STATUS_ERROR, w)
  else wait_and_harvest fuel w.

(** For this message, we don't wait for the response, just fire and
    forget. *)
Definition ble_client_gap_start_advertise (timeout : Z) (w : World) : BleStatus * World :=
  let adv_params :=
    {| adv_timeout := timeout;
       adv_interval_min := APP_ULTRA_FAST_ADV_INTERVAL;
       adv_interval_max := APP_ULTRA_FAST_ADV_INTERVAL;
       adv_type := BLE_GAP_ADV_TYPE_ADV_IND;
       filter_policy := BLE_GAP_ADV_FP_ANY;
       p_peer_bda := NULL;
       adv_options := BLE_GAP_OPT_ADV_DEFAULT |} in
  submit (ble_gap_start_advertise (service_handle w) adv_params) w.

Definition ble_client_gap_stop_advertise (w : World) : BleStatus * World :=
  submit (ble_gap_stop_advertise (service_handle w)) w.

Definition ble_client_gatts_add_service (fuel : nat) (uuid type svc_handle : Z) (w : World)
    : option (BleStatus * World) :=
  let w := set_sync_response 0 w in
  let w := set_sync_param svc_handle w in
  let '(rc, w) := submit (ble_gatts_add_service (service_handle w) uuid type) w in
  if nonzero rc then Some (BLE_STATUS_ERROR, w)
  else wait_and_harvest fuel w.

Definition ble_client_gatts_include_service (fuel : nat)
    (primary_svc_handle included_svc_handle : Z) (w : World)
    : option (BleStatus * World) :=
  let w := set_sync_response 0 w in
  let '(rc, w) := submit (ble_gatts_add_included_svc (service_handle w)
                            primary_svc_handle included_svc_handle) w in
  if nonzero rc then Some (BLE_STATUS_ERROR, w)
  else wait_and_harvest fuel w.

Definition ble_client_gatts_add_characteristic (fuel : nat)
    (svc_handle char_data handles : Z) (w : World) : option (BleStatus * World) :=
  let w := set_sync_response 0 w in
  let w := set_sync_param handles w in
  let '(rc, w) := submit (ble_gatts_add_characteristic (service_handle w)
                            svc_handle char_data) w in
  if nonzero rc then Some (BLE_STATUS_ERROR, w)
  else wait_and_harvest fuel w.

Definition ble_client_gatts_add_descriptor (fuel : nat)
    (svc_handle desc handle : Z) (w : World) : option (BleStatus * World) :=
  let w := set_sync_response 0 w in
  let w := set_sync_param handle w in
  let '(rc, w) := submit (ble_gatts_add_descriptor (service_handle w) desc) w in
  if nonzero rc then Some (BLE_STATUS_ERROR, w)
  else wait_and_harvest fuel w.

Definition ble_client_gatts_set_attribute_value (fuel : nat)
    (value_handle len p_value offset : Z) (w : World) : option (BleStatus * World) :=
  let w := set_sync_response 0 w in
  let '(rc, w) := submit (ble_gatts_set_attribute_value (service_handle w)
                            value_handle len p_value offset) w in
  if nonzero rc then Some (BLE_STATUS_ERROR, w)
  else wait_and_harvest fuel w.

Definition ble_client_gatts_send_notif_ind (fuel : nat)
    (value_handle len p_value offset : Z) (indication : bool) (w : World)
    : option (BleStatus * World) :=
  if negb (connected w) then Some (BLE_STATUS_WRONG_STATE, w)
  else
    let ind_params :=
      {| val_handle := value_handle; ind_len := len; ind_p_data := p_value;
         ind_offset := offset |} in
    let w := set_sync_response 0 w in
    let '(sts, w) :=
      if indication
      then submit (ble_gatts_send_ind (service_handle w) (conn_handle w) ind_params) w
      else submit (ble_gatts_send_notif (service_handle w) (conn_handle w) ind_params) w in
    if nonzero sts then Some (BLE_STATUS_ERROR, w)
    else wait_and_harvest fuel w.

Definition ble_client_gap_disconnect (fuel : nat) (reason : Z) (w : World)
    : option (BleStatus * World) :=
  if negb (connected w) then Some (BLE_STATUS_WRONG_STATE, w)
  else
    let w := set_sync_response 0 w in
    let '(rc, w) := submit (ble_gap_disconnect (service_handle w) (conn_handle w) reason) w in
    if nonzero rc then Some (BLE_STATUS_ERROR, w)
    else wait_and_harvest fuel w.

Definition ble_client_gap_set_rssi_report (fuel : nat) (enable : bool) (w : World)
    : option (BleStatus * World) :=
  if negb (connected w) then Some (BLE_STATUS_WRONG_STATE, w)
  else
    let w := set_sync_response 0 w in
    let '(rc, w) :=
      submit (ble_gap_set_rssi_report (service_handle w) (conn_handle w)
                (if enable then BLE_GAP_RSSI_ENABLE_REPORT
                 else BLE_GAP_RSSI_DISABLE_REPORT)) w in
    if nonzero rc then Some (BLE_STATUS_ERROR, w)
    else wait_and_harvest fuel w.

End BleClient.

(** ** Concrete environments *)

(** A GAP subscriber that stores, at the address given as its user
    parameter, whether it found the session connected (1) or not (0). *)
Definition probe_gap_cb (fn : Z) (tag : ble_client_gap_event_t) (evt : ble_gap_event)
    (user : Z) (w : World) : gmap Z object :=
  <[user := ObjU16 (if connected w then 1 else 0)]> (mem w).

(** A GATT server subscriber that leaves memory alone. *)
Definition idle_gatts_cb (fn : Z) (tag : ble_client_gatts_event_t)
    (evt : ble_gatts_evt_msg) (user : Z) (w : World) : gmap Z object :=
  mem w.

(** A bench set-up: the given clock and inbound schedule, a substrate that
    accepts every request, and the two subscribers above. *)
Definition bench (clock : nat -> Z) (inbox : nat -> list cfw_message) : Environment :=
  {| uptime := clock;
     inbound := inbox;
     submit_rc := fun _ _ => BLE_STATUS_SUCCESS;
     cfw_init_handle := 1;
     BLE_CORE_SERVICE_ID := 3;
     gap_cb_code := probe_gap_cb;
     gatts_cb_code := idle_gatts_cb |}.

(** A counter that starts at [start] and has advanced [step] ticks each
    time it is read again. *)
Definition stepping (start step : Z) (n : nat) : Z := start + step * Z.of_nat n.

(** Nothing arrives. *)
Definition silence (n : nat) : list cfw_message := [].

(** One message arrives, before the [k]-th read of the completion flag. *)
Definition arrives (k : nat) (msg : cfw_message) (n : nat) : list cfw_message :=
  if Nat.eqb n k then [msg] else [].

(** The counter is six ticks short of its limit when the caller starts to
    wait, and nothing arrives. *)
Definition near_limit : Environment := bench (stepping (2 ^ 32 - 6) 1) silence.

(** The counter is 32769 ticks short of its limit when the caller starts
    to wait, and nothing arrives. *)
Definition at_limit : Environment := bench (stepping (2 ^ 32 - 32769) 1) silence.

(** The handle set of the add-characteristic scenario. *)
Definition handles_10_11 : ble_gatts_char_handles :=
  {| value_handle := 0x10; cccd_handle := 0x11 |}.

(** The response to add-characteristic arrives before the third read of
    the completion flag; the clock advances one tick per reading. *)
Definition char_added : Environment :=
  bench (stepping 0 1)
        (arrives 2 (MSG_ID_BLE_GATTS_ADD_CHARACTERISTIC_RSP BLE_STATUS_SUCCESS
                      handles_10_11)).

(** Nothing arrives, and the clock has advanced 20000 ticks each time it
    is read again. *)
Definition unanswered : Environment := bench (stepping 0 20000) silence.

(** A substrate that turns every request down with its own code 7. *)
Definition refusing : Environment :=
  {| uptime := stepping 0 1;
     inbound := silence;
     submit_rc := fun _ _ => BLE_STATUS_REMOTE 7;
     cfw_init_handle := 1;
     BLE_CORE_SERVICE_ID := 3;
     gap_cb_code := probe_gap_cb;
     gatts_cb_code := idle_gatts_cb |}.

(** A write-configuration response with the remote failure code 9 arrives
    before the second read of the completion flag. *)
Definition conf_fails : Environment :=
  bench (stepping 0 1) (arrives 1 (MSG_ID_BLE_GAP_WR_CONF_RSP (BLE_STATUS_REMOTE 9))).

(** The write-configuration response arrives with Success, and later the
    security-configuration response with the remote failure code 4. *)
Definition conf_then_sm : Environment :=
  bench (stepping 0 1)
        (fun n =>
           if Nat.eqb n 1 then [MSG_ID_BLE_GAP_WR_CONF_RSP BLE_STATUS_SUCCESS]
           else if Nat.eqb n 3 then [MSG_ID_BLE_GAP_SM_CONFIG_RSP (BLE_STATUS_REMOTE 4)]
           else []).

(** The availability event and then the open-service response with
    handle 77 arrive; the clock advances 10 ticks per reading. *)
Definition service_opens : Environment :=
  bench (stepping 0 10)
        (fun n =>
           if Nat.eqb n 1 then [MSG_ID_CFW_SVC_AVAIL_EVT 3]
           else if Nat.eqb n 3 then [MSG_ID_CFW_OPEN_SERVICE 77]
           else []).

(** The availability event arrives and nothing after it; the clock
    advances 10 ticks per reading and jumps ahead by 40000 ticks at its
    eighth reading. *)
Definition service_silent : Environment :=
  bench (fun n => if Nat.ltb n 8 then stepping 0 10 n else stepping 40000 10 n)
        (arrives 1 (MSG_ID_CFW_SVC_AVAIL_EVT 3)).

(** No availability event ever arrives; a write-configuration response,
    left over from some other request, arrives during the first wait of
    initialisation, and later the open-service response with handle 77. *)
Definition foreign_completion : Environment :=
  bench (stepping 0 10)
        (fun n =>
           if Nat.eqb n 1 then [MSG_ID_BLE_GAP_WR_CONF_RSP BLE_STATUS_SUCCESS]
           else if Nat.eqb n 3 then [MSG_ID_CFW_OPEN_SERVICE 77]
           else []).

(** A failing write-configuration response and a succeeding
    write-advertising-data response arrive together, in this order, before
    the second read of the completion flag. *)
Definition two_at_once : Environment :=
  bench (stepping 0 1)
        (fun n =>
           if Nat.eqb n 1
           then [MSG_ID_BLE_GAP_WR_CONF_RSP (BLE_STATUS_REMOTE 9);
                 MSG_ID_BLE_GAP_WR_ADV_DATA_RSP BLE_STATUS_SUCCESS]
           else []).

(** * Properties *)

Section Properties.

Variable env : Environment.

Local Abbreviation dispatch := (ble_core_client_handle_message env).

(** ** What the dispatcher leaves alone *)

(** The requests handed to the substrate so far. *)
Definition submitted (t : list effect) : list request :=
  omap (fun e => match e with Submitted r => Some r | _ => None end) t.

(** A subscriber call made on behalf of world [w]: through the pointer
    stored for the event's category, which is not null, with the stored
    user parameter. *)
Definition registered_call (w : World) (e : effect) : Prop :=
  match e with
  | GapEventCb fn _ _ user =>
      fn = ble_client_gap_event_cb w /\ fn <> NULL /\ user = ble_client_gap_event_param w
  | GattsEventCb fn _ _ user =>
      fn = ble_client_gatts_event_cb w /\ fn <> NULL /\ user = ble_client_gatts_event_param w
  | _ => False
  end.

(** The message kinds whose handler sets [sync.response]; for the
    availability event, only when it names the BLE core service. *)
Definition completes (msg : cfw_message) : bool :=
  match msg with
  | MSG_ID_CFW_SVC_AVAIL_EVT service_id =>
      bool_decide (service_id = BLE_CORE_SERVICE_ID env)
  | MSG_ID_BLE_GAP_ENABLE_ADV_RSP _ | MSG_ID_BLE_GAP_DISABLE_ADV_RSP _
  | MSG_ID_BLE_GAP_CONNECT_EVT _ | MSG_ID_BLE_GAP_DISCONNECT_EVT _
  | MSG_ID_BLE_GAP_TO_EVT _ | MSG_ID_BLE_GAP_RSSI_EVT _
  | MSG_ID_BLE_GATTS_WRITE_EVT _ | MSG_ID_OTHER _ => false
  | _ => true
  end.

Ltac unfold_handlers :=
  unfold ble_core_client_handle_message, cfw_msg_free,
    handle_msg_id_cfw_svc_avail_evt, handle_msg_id_cfw_open_svc,
    handle_msg_id_ble_gap_wr_conf_rsp, handle_msg_id_ble_gap_rd_bda_rsp,
    handle_msg_id_ble_gap_sm_config_rsp, handle_msg_id_ble_gap_wr_adv_data_rsp,
    handle_msg_id_ble_gap_enable_adv_rsp, handle_msg_id_ble_gap_disable_adv_rsp,
    handle_msg_id_gatts_add_service_rsp, handle_msg_id_gatts_add_characteristic_rsp,
    handle_msg_id_gatts_add_desc_rsp, handle_msg_id_ble_gatts_set_attribute_value_rsp,
    handle_msg_id_ble_gap_connect_evt_msg, handle_msg_id_ble_gap_disconnect_evt_msg,
    handle_msg_id_ble_gap_timeout_evt_msg, handle_msg_id_ble_gap_rssi_evt_msg,
    handle_msg_id_ble_gatts_write_evt_msg, handle_msg_id_ble_gatts_send_notif_ind_rsp,
    handle_msg_id_ble_gap_disconnect_rsp, handle_msg_id_ble_gap_set_rssi_report_rsp,
    call_gap_event_cb, call_gatts_event_cb, store.

(** Split on every test a handler makes. *)
Ltac handler_cases :=
  repeat match goal with
    | |- context [decide ?P] => destruct (decide P)
    | |- context [bool_decide ?P] => destruct (bool_decide P)
    | |- context [?a =? ?b] => destruct (a =? b) eqn:?
    | |- context [match evt_timeout_reason ?e with _ => _ end] =>
        destruct (evt_timeout_reason e) eqn:?
    end; cbn.

(** The call an event makes to the GAP subscriber, if one is registered. *)
Definition gap_call (tag : ble_client_gap_event_t) (evt : ble_gap_event) (w : World)
    : list effect :=
  if ble_client_gap_event_cb w =? NULL then []
  else [GapEventCb (ble_client_gap_event_cb w) tag evt (ble_client_gap_event_param w)].

(** The call a write event makes to the GATT server subscriber, if one is
    registered. *)
Definition gatts_call (evt : ble_gatts_evt_msg) (w : World) : list effect :=
  if ble_client_gatts_event_cb w =? NULL then []
  else [GattsEventCb (ble_client_gatts_event_cb w) BLE_CLIENT_GATTS_EVENT_WRITE evt
          (ble_client_gatts_event_param w)].

(** The subscriber calls a timeout event gives rise to. *)
Definition timeout_calls (evt : ble_gap_event) (w : World) : list effect :=
  match evt_timeout_reason evt with
  | BLE_SVC_GAP_TO_ADV => gap_call BLE_CLIENT_GAP_EVENT_ADV_TIMEOUT evt w
  | BLE_SVC_GAP_TO_CONN => gap_call BLE_CLIENT_GAP_EVENT_CONN_TIMEOUT evt w
  | TO_OTHER _ => []
  end.

(** The subscriber calls each kind of message gives rise to. *)
Definition calls_for (msg : cfw_message) (w : World) : list effect :=
  match msg with
  | MSG_ID_BLE_GAP_CONNECT_EVT evt => gap_call BLE_CLIENT_GAP_EVENT_CONNECTED evt w
  | MSG_ID_BLE_GAP_DISCONNECT_EVT evt => gap_call BLE_CLIENT_GAP_EVENT_DISCONNECTED evt w
  | MSG_ID_BLE_GAP_TO_EVT evt => timeout_calls evt w
  | MSG_ID_BLE_GAP_RSSI_EVT evt => gap_call BLE_CLIENT_GAP_EVENT_RSSI evt w
  | MSG_ID_BLE_GATTS_WRITE_EVT evt => gatts_call evt w
  | _ => []
  end.

(** The dispatcher appends to the trace: the subscriber calls of the
    message's kind and then the release of the message. *)
Lemma dispatch_trace (msg : cfw_message) (w : World) :
  trace (dispatch msg w) = trace w ++ calls_for msg w ++ [MsgFree msg].
Proof.
  destruct msg; unfold calls_for, timeout_calls, gap_call, gatts_call;
    unfold_handlers; cbn; handler_cases; rewrite <- ?app_assoc; reflexivity.
Qed.

Lemma calls_for_registered (msg : cfw_message) (w : World) :
  Forall (registered_call w) (calls_for msg w).
Proof.
  destruct msg; unfold calls_for, timeout_calls, gap_call, gatts_call;
    handler_cases; repeat constructor; cbn; lia.
Qed.

(** The messages released so far. *)
Definition released (t : list effect) : list cfw_message :=
  omap (fun e => match e with MsgFree m => Some m | _ => None end) t.

Lemma submitted_app (t u : list effect) : submitted (t ++ u) = submitted t ++ submitted u.
Proof. apply omap_app. Qed.

Lemma released_app (t u : list effect) : released (t ++ u) = released t ++ released u.
Proof. apply omap_app. Qed.

Lemma callbacks_submit_nothing (w : World) (calls : list effect) :
  Forall (registered_call w) calls ->
  submitted calls = [] /\ released calls = [].
Proof.
  induction 1 as [|e calls He _ [IHs IHr]]; [done|].
  destruct e; try destruct He; cbn; auto.
Qed.

(** The dispatcher never touches the registry, the client handle or the
    caller's progress counters, and never submits a request. *)
Lemma dispatch_frame (msg : cfw_message) (w : World) :
  let w' := dispatch msg w in
  client_handle w' = client_handle w
  /\ ble_client_gap_event_cb w' = ble_client_gap_event_cb w
  /\ ble_client_gap_event_param w' = ble_client_gap_event_param w
  /\ ble_client_gatts_event_cb w' = ble_client_gatts_event_cb w
  /\ ble_client_gatts_event_param w' = ble_client_gatts_event_param w
  /\ clock_reads w' = clock_reads w
  /\ polls w' = polls w
  /\ submitted (trace w') = submitted (trace w).
Proof.
  cbn zeta. repeat split;
    try (destruct msg; unfold_handlers; cbn; handler_cases; reflexivity).
  rewrite dispatch_trace.
  destruct (callbacks_submit_nothing w _ (calls_for_registered msg w)) as [Hs _].
  rewrite !submitted_app, Hs. cbn. by rewrite app_nil_r.
Qed.

(** A message of a kind that does not complete the slot leaves the slot
    and the service handle as they were. *)
Lemma dispatch_quiet (msg : cfw_message) (w : World) :
  completes msg = false ->
  sync (dispatch msg w) = sync w /\ service_handle (dispatch msg w) = service_handle w.
Proof.
  destruct msg; cbn; try discriminate; intros Hq;
    try apply bool_decide_eq_false in Hq;
    unfold_handlers; cbn; handler_cases; done.
Qed.

(** ** The dispatcher: release and null checks *)

(** C9.  Whatever its kind, a message handed to the dispatcher is released
    exactly once, and the release is the last thing the dispatcher does: the
    list of released messages grows by this message alone and the trace ends
    with its release.  A message of a kind without a [case] label has no
    other effect at all: the world the dispatcher returns is the one it got
    with the release appended. *)
Theorem dispatcher_releases_every_message_once :
  (forall (msg : cfw_message) (w : World),
      released (trace (dispatch msg w)) = released (trace w) ++ [msg]
      /\ last (trace (dispatch msg w)) = Some (MsgFree msg))
  /\ (forall (id : Z) (w : World),
         dispatch (MSG_ID_OTHER id) w = emit (MsgFree (MSG_ID_OTHER id)) w).
Proof.
  split; [|reflexivity].
  intros msg w. rewrite dispatch_trace.
  destruct (callbacks_submit_nothing w _ (calls_for_registered msg w)) as [_ Hr]. split.
  - rewrite !released_app, Hr. reflexivity.
  - rewrite app_assoc. apply last_snoc.
Qed.

(** The session state an inbound message leaves behind. *)
Definition connected_after (msg : cfw_message) (w : World) : bool :=
  match msg with
  | MSG_ID_BLE_GAP_CONNECT_EVT _ => true
  | MSG_ID_BLE_GAP_DISCONNECT_EVT _ | MSG_ID_BLE_GAP_TO_EVT _ => false
  | _ => connected w
  end.

Definition conn_handle_after (msg : cfw_message) (w : World) : Z :=
  match msg with
  | MSG_ID_BLE_GAP_CONNECT_EVT evt => evt_conn_handle evt
  | _ => conn_handle w
  end.

(** C10.  The subscriber calls the dispatcher makes for a message are the
    ones of the message's kind: every one of them goes through the pointer
    stored for its category, and only when that pointer is not null.  With
    no GAP subscriber registered (before init has stored the callbacks, or
    after init was given a null callback) no GAP event of any kind leads to
    a call, and likewise for the write event and the GATT server
    subscriber; in every case the session state is updated and the message
    released. *)
Theorem callbacks_called_only_when_registered (msg : cfw_message) (w : World) :
  trace (dispatch msg w) = trace w ++ calls_for msg w ++ [MsgFree msg]
  /\ Forall (registered_call w) (calls_for msg w)
  /\ (ble_client_gap_event_cb w = NULL ->
      forall evt,
        calls_for (MSG_ID_BLE_GAP_CONNECT_EVT evt) w = []
        /\ calls_for (MSG_ID_BLE_GAP_DISCONNECT_EVT evt) w = []
        /\ calls_for (MSG_ID_BLE_GAP_TO_EVT evt) w = []
        /\ calls_for (MSG_ID_BLE_GAP_RSSI_EVT evt) w = [])
  /\ (ble_client_gatts_event_cb w = NULL ->
      forall evt, calls_for (MSG_ID_BLE_GATTS_WRITE_EVT evt) w = [])
  /\ connected (dispatch msg w) = connected_after msg w
  /\ conn_handle (dispatch msg w) = conn_handle_after msg w.
Proof.
  split; [apply dispatch_trace|]. split; [apply calls_for_registered|].
  split; [|split; [|split]].
  - intros Hgap evt. unfold calls_for, timeout_calls, gap_call. rewrite Hgap. cbn.
    by destruct (evt_timeout_reason evt).
  - intros Hgatts evt. unfold calls_for, gatts_call. by rewrite Hgatts.
  - destruct msg; unfold_handlers; cbn; handler_cases; reflexivity.
  - destruct msg; unfold_handlers; cbn; handler_cases; reflexivity.
Qed.

(** ** Out-parameters *)

(** C4.  A read-address, add-service, add-characteristic or add-descriptor
    response with a status other than Success leaves caller memory exactly
    as it was; with status Success and a destination in the slot, caller
    memory changes at the destination alone, which then holds the payload
    of the response. *)
Theorem out_param_written_iff_success
    (s : BleStatus) (w : World)
    (bd : ble_addr_t) (svc : Z) (ch : ble_gatts_char_handles) (d : Z) :
  let p := param (sync w) in
  (s <> BLE_STATUS_SUCCESS ->
     mem (dispatch (MSG_ID_BLE_GAP_RD_BDA_RSP s bd) w) = mem w
     /\ mem (dispatch (MSG_ID_BLE_GATTS_ADD_SERVICE_RSP s svc) w) = mem w
     /\ mem (dispatch (MSG_ID_BLE_GATTS_ADD_CHARACTERISTIC_RSP s ch) w) = mem w
     /\ mem (dispatch (MSG_ID_BLE_GATTS_ADD_DESCRIPTOR_RSP s d) w) = mem w)
  /\ (s = BLE_STATUS_SUCCESS -> p <> NULL ->
     mem (dispatch (MSG_ID_BLE_GAP_RD_BDA_RSP s bd) w) = <[p := ObjAddr bd]> (mem w)
     /\ mem (dispatch (MSG_ID_BLE_GATTS_ADD_SERVICE_RSP s svc) w)
        = <[p := ObjU16 svc]> (mem w)
     /\ mem (dispatch (MSG_ID_BLE_GATTS_ADD_CHARACTERISTIC_RSP s ch) w)
        = <[p := ObjCharHandles ch]> (mem w)
     /\ mem (dispatch (MSG_ID_BLE_GATTS_ADD_DESCRIPTOR_RSP s d) w)
        = <[p := ObjU16 d]> (mem w)).
Proof.
  cbn zeta. split.
  - intros Hs. unfold_handlers. cbn.
    rewrite bool_decide_eq_false_2 by congruence.
    rewrite andb_false_r. done.
  - intros -> Hp. unfold_handlers. cbn.
    apply Z.eqb_neq in Hp. rewrite Hp. done.
Qed.

(** ** The gate on the connection state *)

Lemma send_notif_ind_gate (fuel : nat) (value_handle len p_value offset : Z)
    (indication : bool) (w : World) :
  connected w = false ->
  ble_client_gatts_send_notif_ind env fuel value_handle len p_value offset indication w
  = Some (BLE_STATUS_WRONG_STATE, w).
Proof. unfold ble_client_gatts_send_notif_ind. by intros ->. Qed.

Lemma gap_disconnect_gate (fuel : nat) (reason : Z) (w : World) :
  connected w = false ->
  ble_client_gap_disconnect env fuel reason w = Some (BLE_STATUS_WRONG_STATE, w).
Proof. unfold ble_client_gap_disconnect. by intros ->. Qed.

Lemma set_rssi_report_gate (fuel : nat) (enable : bool) (w : World) :
  connected w = false ->
  ble_client_gap_set_rssi_report env fuel enable w = Some (BLE_STATUS_WRONG_STATE, w).
Proof. unfold ble_client_gap_set_rssi_report. by intros ->. Qed.

(** ** Session state *)

(** A timeout event sets Connected to false
    whatever its reason, which changes nothing when the session was not
    connected; the connection handle and the pending-request slot are left
    alone.  With a GAP subscriber registered, the advertising reason fires
    the advertising-timeout tag and nothing else, the connection-attempt
    reason fires the connection-timeout tag and nothing else, and any other
    reason fires nothing. *)
Theorem timeout_event_disconnects (evt : ble_gap_event) (w : World) :
  let msg := MSG_ID_BLE_GAP_TO_EVT evt in
  let w' := dispatch msg w in
  connected w' = false
  /\ conn_handle w' = conn_handle w
  /\ sync w' = sync w
  /\ (evt_timeout_reason evt = BLE_SVC_GAP_TO_ADV ->
      trace w' = trace w ++ gap_call BLE_CLIENT_GAP_EVENT_ADV_TIMEOUT evt w ++ [MsgFree msg])
  /\ (evt_timeout_reason evt = BLE_SVC_GAP_TO_CONN ->
      trace w' = trace w ++ gap_call BLE_CLIENT_GAP_EVENT_CONN_TIMEOUT evt w ++ [MsgFree msg])
  /\ (forall code, evt_timeout_reason evt = TO_OTHER code ->
      trace w' = trace w ++ [MsgFree msg]).
Proof.
  cbn zeta. rewrite dispatch_trace. unfold calls_for, timeout_calls.
  repeat split; try (intros; by destruct (evt_timeout_reason evt)).
  all: unfold_handlers; cbn; destruct (_ =? _); cbn; [done|];
    by destruct (evt_timeout_reason evt).
Qed.

(** C5.  While the session is not connected, which is when advertising
    runs, a timeout event with the advertising reason leaves the Connected
    flag and the connection handle as they are, and the advertising-timeout
    tag is the only one fired; a timeout event with the connection-attempt
    reason sets Connected to false, in whatever world it arrives, and the
    connection-timeout tag is the only one fired. *)
Theorem timeout_event_by_reason (evt : ble_gap_event) (w : World) :
  let msg := MSG_ID_BLE_GAP_TO_EVT evt in
  connected w = false ->
  (evt_timeout_reason evt = BLE_SVC_GAP_TO_ADV ->
     connected (dispatch msg w) = connected w
     /\ conn_handle (dispatch msg w) = conn_handle w
     /\ trace (dispatch msg w)
        = trace w ++ gap_call BLE_CLIENT_GAP_EVENT_ADV_TIMEOUT evt w ++ [MsgFree msg])
  /\ (forall w2 : World,
        evt_timeout_reason evt = BLE_SVC_GAP_TO_CONN ->
        connected (dispatch msg w2) = false
        /\ trace (dispatch msg w2)
           = trace w2 ++ gap_call BLE_CLIENT_GAP_EVENT_CONN_TIMEOUT evt w2 ++ [MsgFree msg]).
Proof.
  intros msg Hdown. split.
  - intros Hadv. rewrite Hdown. subst msg. rewrite dispatch_trace.
    unfold calls_for, timeout_calls. rewrite Hadv.
    repeat split; unfold_handlers; cbn; destruct (_ =? _); cbn; try done;
      by rewrite Hadv.
  - intros w2 Hconn. subst msg. rewrite dispatch_trace.
    unfold calls_for, timeout_calls. rewrite Hconn.
    repeat split; unfold_handlers; cbn; destruct (_ =? _); cbn; try done;
      by rewrite Hconn.
Qed.

(** C2.  While the session is not connected, sending a notification or
    indication, disconnecting, and switching signal-strength reports each
    return WrongState at once, whatever the fuel: the world handed back is
    the world given, so nothing was submitted, the slot was not armed, and
    neither the clock nor the completion flag was read. *)
Theorem gated_operations_reject_when_disconnected
    (w : World) (Hdown : connected w = false)
    (fuel : nat) (value_handle len p_value offset reason : Z) (indication enable : bool) :
  ble_client_gatts_send_notif_ind env fuel value_handle len p_value offset indication w
  = Some (BLE_STATUS_WRONG_STATE, w)
  /\ ble_client_gap_disconnect env fuel reason w = Some (BLE_STATUS_WRONG_STATE, w)
  /\ ble_client_gap_set_rssi_report env fuel enable w = Some (BLE_STATUS_WRONG_STATE, w).
Proof.
  auto using send_notif_ind_gate, gap_disconnect_gate, set_rssi_report_gate.
Qed.

(** ** Fire and forget *)

(** The advertising parameters [ble_client_gap_start_advertise] builds. *)
Definition adv_params_for (timeout : Z) : ble_gap_adv_param_t :=
  {| adv_timeout := timeout;
     adv_interval_min := 32; adv_interval_max := 32;
     adv_type := 0; filter_policy := 0; p_peer_bda := NULL;
     adv_options := BLE_GAP_OPT_ADV_DEFAULT |}.

(** C7.  Starting and stopping advertising hand one request to the
    substrate and return its immediate answer.  They take no fuel: there is
    no loop in them.  The slot, the session state, caller memory and the
    counts of clock and flag reads are as before, so no slot was armed and
    no wait took place, and the status returned can only be what the
    submission reported.  The responses to the two requests, when they
    arrive, leave the slot alone as well. *)
Theorem advertising_is_fire_and_forget (timeout : Z) (w : World) :
  let start := ble_gap_start_advertise (service_handle w) (adv_params_for timeout) in
  let stop := ble_gap_stop_advertise (service_handle w) in
  (ble_client_gap_start_advertise env timeout w
   = (submit_rc env (trace w) start, emit (Submitted start) w)
   /\ ble_client_gap_stop_advertise env w
      = (submit_rc env (trace w) stop, emit (Submitted stop) w))
  /\ (forall r : request,
         sync (emit (Submitted r) w) = sync w
         /\ clock_reads (emit (Submitted r) w) = clock_reads w
         /\ polls (emit (Submitted r) w) = polls w
         /\ connected (emit (Submitted r) w) = connected w
         /\ mem (emit (Submitted r) w) = mem w
         /\ trace (emit (Submitted r) w) = trace w ++ [Submitted r])
  /\ (forall (s : BleStatus) (w0 : World),
         sync (dispatch (MSG_ID_BLE_GAP_ENABLE_ADV_RSP s) w0) = sync w0
         /\ sync (dispatch (MSG_ID_BLE_GAP_DISABLE_ADV_RSP s) w0) = sync w0).
Proof.
  cbn zeta. split; [split; reflexivity|]. split.
  - intros r. repeat split.
  - intros s w0. split; apply dispatch_quiet; reflexivity.
Qed.

Lemma u32_small (z : Z) : 0 <= z < 2 ^ 32 -> u32 z = z.
Proof. apply Z.mod_small. Qed.

Lemma u32_range (z : Z) : 0 <= u32 z < 2 ^ 32.
Proof. apply Z.mod_pos_bound. lia. Qed.

(** ** Waiting *)

(** What a stretch of waiting leaves alone when nothing that arrives
    completes the slot: the slot itself, the handles, the registry and the
    list of submitted requests. *)
Definition idles (w w' : World) : Prop :=
  sync w' = sync w
  /\ service_handle w' = service_handle w
  /\ client_handle w' = client_handle w
  /\ ble_client_gap_event_cb w' = ble_client_gap_event_cb w
  /\ ble_client_gap_event_param w' = ble_client_gap_event_param w
  /\ ble_client_gatts_event_cb w' = ble_client_gatts_event_cb w
  /\ ble_client_gatts_event_param w' = ble_client_gatts_event_param w
  /\ submitted (trace w') = submitted (trace w).

Lemma idles_refl (w : World) : idles w w.
Proof. by repeat split. Qed.

Lemma idles_trans (w1 w2 w3 : World) : idles w1 w2 -> idles w2 w3 -> idles w1 w3.
Proof. unfold idles. intros. intuition congruence. Qed.

Lemma dispatch_idles (msg : cfw_message) (w : World) :
  completes msg = false -> idles w (dispatch msg w).
Proof.
  intros Hq. destruct (dispatch_quiet msg w Hq) as [? ?].
  destruct (dispatch_frame msg w) as (? & ? & ? & ? & ? & _ & _ & ?).
  by repeat split.
Qed.

(** No message in [l] completes the slot. *)
Definition quiet (l : list cfw_message) : Prop :=
  Forall (fun msg => completes msg = false) l.

Definition handle_all (l : list cfw_message) (w : World) : World :=
  foldl (fun w msg => dispatch msg w) w l.

Lemma handle_all_cons (msg : cfw_message) (l : list cfw_message) (w : World) :
  handle_all (msg :: l) w = handle_all l (dispatch msg w).
Proof. reflexivity. Qed.

Lemma handle_all_counters (l : list cfw_message) (w : World) :
  clock_reads (handle_all l w) = clock_reads w /\ polls (handle_all l w) = polls w.
Proof.
  revert w. induction l as [|msg l IH]; intros w; [done|]. rewrite handle_all_cons.
  destruct (IH (dispatch msg w)) as [-> ->].
  destruct (dispatch_frame msg w) as (_ & _ & _ & _ & _ & ? & ? & _). done.
Qed.

Lemma handle_all_trace (l : list cfw_message) (w : World) :
  trace w `prefix_of` trace (handle_all l w).
Proof.
  revert w. induction l as [|msg l IH]; intros w; [done|]. rewrite handle_all_cons.
  etrans; [|apply IH]. rewrite dispatch_trace. by apply prefix_app_r.
Qed.

Lemma handle_all_idles (l : list cfw_message) (w : World) :
  quiet l -> idles w (handle_all l w).
Proof.
  intros Hq. revert w. induction Hq as [|msg l Hm _ IH]; intros w.
  - apply idles_refl.
  - rewrite handle_all_cons. eapply idles_trans; [by apply dispatch_idles | apply IH].
Qed.

Lemma deliver_handle_all (w : World) :
  deliver env w = handle_all (inbound env (polls w)) (tick_poll w).
Proof. reflexivity. Qed.

Lemma deliver_counters (w : World) :
  clock_reads (deliver env w) = clock_reads w /\ polls (deliver env w) = S (polls w).
Proof.
  rewrite deliver_handle_all.
  by destruct (handle_all_counters (inbound env (polls w)) (tick_poll w)) as [-> ->].
Qed.

Lemma deliver_trace (w : World) : trace w `prefix_of` trace (deliver env w).
Proof. rewrite deliver_handle_all. apply (handle_all_trace _ (tick_poll w)). Qed.

Lemma deliver_idles (w : World) :
  quiet (inbound env (polls w)) -> idles w (deliver env w).
Proof.
  intros Hq. rewrite deliver_handle_all.
  apply (idles_trans w (tick_poll w)); [by repeat split | by apply handle_all_idles].
Qed.

(** [k] turns of the wait loop in which the flag was found clear and the
    deadline not yet passed. *)
Fixpoint spin (k : nat) (w : World) : World :=
  match k with
  | O => w
  | S k => spin k (tick_clock (deliver env w))
  end.

Lemma spin_counters (k : nat) (w : World) :
  clock_reads (spin k w) = (clock_reads w + k)%nat /\ polls (spin k w) = (polls w + k)%nat.
Proof.
  revert w. induction k as [|k IH]; intros w; cbn; [by rewrite !Nat.add_0_r|].
  destruct (IH (tick_clock (deliver env w))) as [-> ->]. cbn.
  destruct (deliver_counters w) as [-> ->]. lia.
Qed.

Lemma spin_idles (k : nat) (w : World) :
  (forall i, (i < k)%nat -> quiet (inbound env (polls w + i))) ->
  idles w (spin k w).
Proof.
  revert w. induction k as [|k IH]; intros w Hq; cbn; [apply idles_refl|].
  apply (idles_trans w (tick_clock (deliver env w))).
  - apply (idles_trans w (deliver env w)); [|by repeat split].
    apply deliver_idles. specialize (Hq 0%nat). rewrite Nat.add_0_r in Hq. apply Hq. lia.
  - apply IH. intros i Hi. cbn. destruct (deliver_counters w) as [_ ->].
    replace (S (polls w) + i)%nat with (polls w + S i)%nat by lia. apply Hq. lia.
Qed.

Lemma spin_trace (k : nat) (w : World) : trace w `prefix_of` trace (spin k w).
Proof.
  revert w. induction k as [|k IH]; intros w; cbn; [done|].
  etrans; [apply deliver_trace|]. apply (IH (tick_clock (deliver env w))).
Qed.

(** While nothing completes the slot and the clock stays within the
    deadline, the loop keeps turning. *)
Lemma wait_loop_spin (k n : nat) (timeout : Z) (w : World) :
  response (sync w) = 0 ->
  (forall i, (i < k)%nat -> quiet (inbound env (polls w + i))) ->
  (forall i, (i < k)%nat -> u32 (uptime env (clock_reads w + i)) <= timeout) ->
  wait_loop env (k + n) timeout w = wait_loop env n timeout (spin k w).
Proof.
  revert w. induction k as [|k IH]; intros w Hr Hq Hc; [done|].
  cbn [Nat.add wait_loop spin].
  assert (Hq0 : quiet (inbound env (polls w))).
  { specialize (Hq 0%nat). rewrite Nat.add_0_r in Hq. apply Hq. lia. }
  destruct (deliver_idles w Hq0) as (Hs & _).
  destruct (deliver_counters w) as [Hcr Hpo].
  rewrite Hs, Hr. cbn. rewrite Hcr.
  specialize (Hc 0%nat) as Hc0. rewrite Nat.add_0_r in Hc0.
  destruct (Z.gtb_spec (u32 (uptime env (clock_reads w))) timeout) as [Hgt|_];
    [specialize (Hc0 ltac:(lia)); lia|].
  apply IH.
  - cbn. by rewrite Hs.
  - intros i Hi. cbn. rewrite Hpo.
    replace (S (polls w) + i)%nat with (polls w + S i)%nat by lia. apply Hq. lia.
  - intros i Hi. cbn. rewrite Hcr.
    specialize (Hc (S i) ltac:(lia)). by rewrite Nat.add_succ_r in Hc.
Qed.

Ltac clock_index m :=
  match goal with
  | |- context [uptime env ?n] => replace n with m by lia
  end.

(** The deadline [wait_for_condition] computes when entered in world [w]. *)
Definition deadline (w : World) : Z :=
  u32 (u32 (uptime env (clock_reads w)) + 32768).

Lemma wait_for_condition_unfold (fuel : nat) (w : World) :
  wait_for_condition env fuel w = wait_loop env fuel (deadline w) (tick_clock w).
Proof. reflexivity. Qed.

(** The wait ends in Timeout at the first reading beyond the deadline,
    provided nothing completed the slot until then. *)
Lemma wait_for_condition_times_out (k fuel : nat) (w : World) :
  response (sync w) = 0 ->
  (forall i, (i <= k)%nat -> quiet (inbound env (polls w + i))) ->
  (forall i, (i < k)%nat -> u32 (uptime env (clock_reads w + 1 + i)) <= deadline w) ->
  deadline w < u32 (uptime env (clock_reads w + 1 + k)) ->
  (k < fuel)%nat ->
  exists w',
    wait_for_condition env fuel w = Some (BLE_STATUS_TIMEOUT, w')
    /\ idles w w'
    /\ clock_reads w' = (clock_reads w + k + 2)%nat
    /\ polls w' = (polls w + k + 1)%nat.
Proof.
  intros Hr Hq Hc Hlate Hfuel.
  rewrite wait_for_condition_unfold.
  replace fuel with (k + S (fuel - S k))%nat by lia.
  set (w0 := tick_clock w).
  assert (Hspin : idles w0 (spin k w0)).
  { apply spin_idles. intros i Hi. apply Hq. lia. }
  assert (Hquiet : quiet (inbound env (polls (spin k w0)))).
  { destruct (spin_counters k w0) as [_ ->]. apply Hq. lia. }
  rewrite wait_loop_spin; [|done|intros i Hi; apply Hq; lia|].
  2:{ intros i Hi. cbn. clock_index (clock_reads w + 1 + i)%nat. by apply Hc. }
  exists (tick_clock (deliver env (spin k w0))).
  pose proof (deliver_idles _ Hquiet) as Hdel.
  destruct (deliver_counters (spin k w0)) as [Hcr Hpo].
  destruct (spin_counters k w0) as [Hcr' Hpo'].
  split; [|split; [|split]].
  - cbn [wait_loop]. destruct Hdel as (-> & _). destruct Hspin as (-> & _).
    cbn. rewrite Hr. cbn. rewrite Hcr, Hcr'. cbn.
    clock_index (clock_reads w + 1 + k)%nat.
    destruct (Z.gtb_spec (u32 (uptime env (clock_reads w + 1 + k))) (deadline w)); [done|lia].
  - apply (idles_trans w w0); [by repeat split|].
    apply (idles_trans w0 (spin k w0)); [done|].
    apply (idles_trans _ (deliver env (spin k w0))); [done | by repeat split].
  - cbn. rewrite Hcr, Hcr'. cbn. lia.
  - cbn. rewrite Hpo, Hpo'. cbn. lia.
Qed.

Lemma handle_all_snoc (pre : list cfw_message) (msg : cfw_message) (w : World) :
  handle_all (pre ++ [msg]) w = dispatch msg (handle_all pre w).
Proof. unfold handle_all. by rewrite foldl_app. Qed.

(** The wait ends as soon as a message completes the slot, and the
    operation then returns the status that message left there.  [wq] is
    the world the completing message [rsp] finds. *)
Lemma wait_and_harvest_completes (k fuel : nat) (w : World)
    (pre : list cfw_message) (rsp : cfw_message) :
  response (sync w) = 0 ->
  (forall i, (i < k)%nat -> quiet (inbound env (polls w + i))) ->
  inbound env (polls w + k) = pre ++ [rsp] -> quiet pre ->
  (forall i, (i < k)%nat -> u32 (uptime env (clock_reads w + 1 + i)) <= deadline w) ->
  (k < fuel)%nat ->
  exists wq,
    idles w wq
    /\ (response (sync (dispatch rsp wq)) <> 0 ->
        wait_and_harvest env fuel w
        = Some (status (sync (dispatch rsp wq)), dispatch rsp wq)).
Proof.
  intros Hr Hq Hin Hpre Hc Hfuel.
  set (w0 := tick_clock w).
  assert (Hspin : idles w0 (spin k w0)) by (by apply spin_idles).
  destruct (spin_counters k w0) as [_ Hpo].
  exists (handle_all pre (tick_poll (spin k w0))). split.
  - apply (idles_trans w w0); [by repeat split|].
    apply (idles_trans w0 (spin k w0)); [done|].
    apply (idles_trans _ (tick_poll (spin k w0))); [by repeat split|].
    by apply handle_all_idles.
  - intros Hdone. unfold wait_and_harvest.
    rewrite wait_for_condition_unfold.
    replace fuel with (k + S (fuel - S k))%nat by lia.
    rewrite wait_loop_spin; [|done|done|].
    2:{ intros i Hi. cbn. clock_index (clock_reads w + 1 + i)%nat. by apply Hc. }
    fold w0. cbn [wait_loop].
    rewrite deliver_handle_all, Hpo. cbn [polls tick_clock w0].
    rewrite Hin, handle_all_snoc.
    apply Z.eqb_neq in Hdone. rewrite Hdone. cbn.
    rewrite bool_decide_eq_false_2 by (intros Hne; by apply Hne). done.
Qed.

(** ** Out-parameters across a blocking call *)

(** The four operations that hand a destination to the dispatcher. *)
Inductive out_operation : Type :=
  | ReadAddress
  | AddService (uuid type : Z)
  | AddCharacteristic (svc_handle char_data : Z)
  | AddDescriptor (svc_handle desc : Z).

Definition run (op : out_operation) (fuel : nat) (dest : Z) (w : World)
    : option (BleStatus * World) :=
  match op with
  | ReadAddress => ble_client_gap_get_bda env fuel dest w
  | AddService uuid type => ble_client_gatts_add_service env fuel uuid type dest w
  | AddCharacteristic svc_handle char_data =>
      ble_client_gatts_add_characteristic env fuel svc_handle char_data dest w
  | AddDescriptor svc_handle desc =>
      ble_client_gatts_add_descriptor env fuel svc_handle desc dest w
  end.

Definition request_for (op : out_operation) (w : World) : request :=
  match op with
  | ReadAddress => ble_gap_read_bda (service_handle w)
  | AddService uuid type => ble_gatts_add_service (service_handle w) uuid type
  | AddCharacteristic svc_handle char_data =>
      ble_gatts_add_characteristic (service_handle w) svc_handle char_data
  | AddDescriptor _ desc => ble_gatts_add_descriptor (service_handle w) desc
  end.

(** The response of the operation's own kind that carries [payload] with
    status Success, when [payload] has the type the operation yields. *)
Definition success_response (op : out_operation) (payload : object) : option cfw_message :=
  match op, payload with
  | ReadAddress, ObjAddr bd => Some (MSG_ID_BLE_GAP_RD_BDA_RSP BLE_STATUS_SUCCESS bd)
  | AddService _ _, ObjU16 h => Some (MSG_ID_BLE_GATTS_ADD_SERVICE_RSP BLE_STATUS_SUCCESS h)
  | AddCharacteristic _ _, ObjCharHandles ch =>
      Some (MSG_ID_BLE_GATTS_ADD_CHARACTERISTIC_RSP BLE_STATUS_SUCCESS ch)
  | AddDescriptor _ _, ObjU16 h =>
      Some (MSG_ID_BLE_GATTS_ADD_DESCRIPTOR_RSP BLE_STATUS_SUCCESS h)
  | _, _ => None
  end.

(** C1.  Take one of the four operations with an out-parameter, a non-null
    destination, and a substrate that accepts the request.  If the
    operation's response arrives with status Success while the caller is
    waiting, after [k] turns of the loop in which nothing completed the
    slot and every clock reading was within the deadline, then with fuel
    for those turns the call returns Success and the destination holds
    exactly the payload of the response. *)
Theorem out_param_delivered_on_success
    (op : out_operation) (payload : object) (rsp : cfw_message) (dest : Z)
    (w : World) (k fuel : nat) (pre : list cfw_message) :
  success_response op payload = Some rsp ->
  dest <> NULL ->
  submit_rc env (trace w) (request_for op w) = BLE_STATUS_SUCCESS ->
  (forall i, (i < k)%nat -> quiet (inbound env (polls w + i))) ->
  inbound env (polls w + k) = pre ++ [rsp] -> quiet pre ->
  (forall i, (i < k)%nat -> u32 (uptime env (clock_reads w + 1 + i)) <= deadline w) ->
  (k < fuel)%nat ->
  exists w',
    run op fuel dest w = Some (BLE_STATUS_SUCCESS, w')
    /\ mem w' !! dest = Some payload.
Proof.
  intros Hrsp Hdest Hacc Hq Hin Hpre Hc Hfuel.
  set (w2 := emit (Submitted (request_for op w))
               (set_sync_param dest (set_sync_response 0 w))).
  destruct (wait_and_harvest_completes k fuel w2 pre rsp) as (wq & Hidle & Hwait);
    try done.
  destruct Hidle as (Hsync & _).
  assert (Hparam : param (sync wq) = dest) by (by rewrite Hsync).
  apply Z.eqb_neq in Hdest.
  exists (dispatch rsp wq).
  assert (Hrun : run op fuel dest w = wait_and_harvest env fuel w2).
  { destruct op; cbn [run request_for] in *;
      [unfold ble_client_gap_get_bda | unfold ble_client_gatts_add_service
      | unfold ble_client_gatts_add_characteristic
      | unfold ble_client_gatts_add_descriptor];
      unfold submit; cbn [trace set_sync_param set_sync_response set_sync service_handle];
      rewrite Hacc; reflexivity. }
  rewrite Hrun.
  destruct op, payload; try discriminate Hrsp; injection Hrsp as <-.
  all: revert Hwait; unfold_handlers; cbn; rewrite Hparam, Hdest; cbn.
  all: rewrite (bool_decide_eq_true_2 _ (eq_refl BLE_STATUS_SUCCESS)); cbn.
  all: intros Hwait; split; [by apply Hwait | by rewrite lookup_insert_eq].
Qed.

(** Whatever happens during a wait, the trace only grows. *)
Lemma wait_loop_trace (fuel : nat) (timeout : Z) (w w' : World) (r : BleStatus) :
  wait_loop env fuel timeout w = Some (r, w') -> trace w `prefix_of` trace w'.
Proof.
  revert w. induction fuel as [|fuel IH]; intros w; [done|].
  cbn [wait_loop]. pose proof (deliver_trace w) as Hd.
  destruct (negb (response (sync (deliver env w)) =? 0)).
  - by intros [= _ <-].
  - unfold get_uptime_32k.
    destruct (u32 (uptime env (clock_reads (deliver env w))) >? timeout).
    + by intros [= _ <-].
    + intros Hw. apply IH in Hw. by etrans.
Qed.

Lemma wait_and_harvest_trace (fuel : nat) (w w' : World) (r : BleStatus) :
  wait_and_harvest env fuel w = Some (r, w') -> trace w `prefix_of` trace w'.
Proof.
  unfold wait_and_harvest. rewrite wait_for_condition_unfold.
  destruct (wait_loop env fuel (deadline w) (tick_clock w)) as [[sts w1]|] eqn:Hw; [|done].
  apply wait_loop_trace in Hw. cbn.
  destruct (bool_decide (sts <> BLE_STATUS_SUCCESS)); by intros [= _ <-].
Qed.

(** A request that was handed over stays on record. *)
Lemma submitted_stays (r : request) (w w1 w' : World) :
  trace w1 = trace w ++ [Submitted r] -> trace w1 `prefix_of` trace w' ->
  Submitted r ∈ trace w'.
Proof.
  intros Ht [rest ->]. rewrite Ht. set_solver.
Qed.

(** Once connected, a gated operation that returns has handed its request
    to the substrate, on the connection the session records. *)
Lemma gap_disconnect_submits (fuel : nat) (reason : Z) (w w' : World) (r : BleStatus) :
  connected w = true ->
  ble_client_gap_disconnect env fuel reason w = Some (r, w') ->
  Submitted (ble_gap_disconnect (service_handle w) (conn_handle w) reason) ∈ trace w'.
Proof.
  unfold ble_client_gap_disconnect, submit. intros ->. cbn -[wait_and_harvest].
  destruct (nonzero _).
  - intros [= _ <-]. cbn. set_solver.
  - intros Hw. apply wait_and_harvest_trace in Hw.
    eapply submitted_stays; [|exact Hw]. reflexivity.
Qed.

Lemma set_rssi_report_submits (fuel : nat) (enable : bool) (w w' : World) (r : BleStatus) :
  connected w = true ->
  ble_client_gap_set_rssi_report env fuel enable w = Some (r, w') ->
  Submitted (ble_gap_set_rssi_report (service_handle w) (conn_handle w)
               (if enable then BLE_GAP_RSSI_ENABLE_REPORT
                else BLE_GAP_RSSI_DISABLE_REPORT)) ∈ trace w'.
Proof.
  unfold ble_client_gap_set_rssi_report, submit. intros ->. cbn -[wait_and_harvest].
  destruct (nonzero _).
  - intros [= _ <-]. cbn. set_solver.
  - intros Hw. apply wait_and_harvest_trace in Hw.
    eapply submitted_stays; [|exact Hw]. reflexivity.
Qed.

Lemma send_notif_ind_submits (fuel : nat) (value_handle len p_value offset : Z)
    (indication : bool) (w w' : World) (r : BleStatus) :
  connected w = true ->
  ble_client_gatts_send_notif_ind env fuel value_handle len p_value offset indication w
  = Some (r, w') ->
  let ind_params :=
    {| val_handle := value_handle; ind_len := len; ind_p_data := p_value;
       ind_offset := offset |} in
  Submitted (if indication
             then ble_gatts_send_ind (service_handle w) (conn_handle w) ind_params
             else ble_gatts_send_notif (service_handle w) (conn_handle w) ind_params)
  ∈ trace w'.
Proof.
  unfold ble_client_gatts_send_notif_ind, submit. intros ->. cbn -[wait_and_harvest].
  destruct indication; destruct (nonzero _).
  all: try (intros [= _ <-]; cbn; set_solver).
  all: intros Hw; apply wait_and_harvest_trace in Hw;
    (eapply submitted_stays; [|exact Hw]); reflexivity.
Qed.

(** A wait that ends in Timeout ends at the first clock reading of the
    loop that is beyond the deadline: that reading is the last one taken,
    and every reading of the loop before it was within the deadline. *)
Lemma wait_loop_timeout_first (fuel : nat) (timeout : Z) (w w' : World) :
  wait_loop env fuel timeout w = Some (BLE_STATUS_TIMEOUT, w') ->
  (clock_reads w < clock_reads w')%nat
  /\ timeout < u32 (uptime env (clock_reads w' - 1))
  /\ forall j, (clock_reads w <= j < clock_reads w' - 1)%nat ->
       u32 (uptime env j) <= timeout.
Proof.
  revert w. induction fuel as [|fuel IH]; intros w; [done|].
  cbn [wait_loop]. destruct (deliver_counters w) as [Hcr _].
  destruct (negb (response (sync (deliver env w)) =? 0)); [done|].
  unfold get_uptime_32k. rewrite Hcr.
  destruct (Z.gtb_spec (u32 (uptime env (clock_reads w))) timeout) as [Hgt|Hle].
  - intros [= <-]. cbn. rewrite Hcr, Nat.sub_0_r. repeat split; [lia|lia|]. intros j Hj. lia.
  - intros Hw. apply IH in Hw as (Hlt & Hlast & Hbefore). cbn in Hlt, Hbefore.
    rewrite Hcr in Hlt, Hbefore. repeat split; [lia|done|].
    intros j Hj. destruct (decide (j = clock_reads w)) as [->|Hne]; [done|].
    apply Hbefore. lia.
Qed.

(** With the deadline at the largest value the counter can show, the
    loop cannot end in Timeout: when nothing arrives it never ends. *)
Lemma wait_loop_hangs_at_limit (fuel : nat) (w : World) :
  (forall n, inbound env n = []) ->
  response (sync w) = 0 ->
  wait_loop env fuel (2 ^ 32 - 1) w = None.
Proof.
  intros Hin. revert w. induction fuel as [|fuel IH]; intros w Hr; [done|].
  cbn [wait_loop]. rewrite deliver_handle_all, Hin. cbn [handle_all foldl].
  cbn [sync tick_poll]. rewrite Hr. cbn [Z.eqb negb]. unfold get_uptime_32k.
  pose proof (u32_range (uptime env (clock_reads (tick_poll w)))) as Hrange.
  destruct (Z.gtb_spec (u32 (uptime env (clock_reads (tick_poll w)))) (2 ^ 32 - 1));
    [lia|].
  by apply IH.
Qed.

(** ** Initialisation *)

(** C8, as the code has it.  [ble_client_init] first registers for the
    availability of the BLE core service and waits on the slot, which any
    completing message ends.  Suppose the substrate accepts the
    registration, nothing that arrives during the wait completes the slot
    (the availability event for the BLE core service in particular does
    not arrive), and the clock passes the deadline of the wait for the
    first time at its [k]-th reading in the loop.  Then, given fuel for
    those [k] turns, init returns Timeout; the one request it has submitted
    is the registration, so the session was not opened; the service handle
    and the four registry variables are as before; and, where the deadline
    did not wrap, the last clock reading init took is more than 32768 ticks
    after its first. *)
Theorem init_times_out_without_opening_session
    (w : World) (k fuel : nat) (gap_cb gap_param gatts_cb gatts_param : Z) :
  let c := clock_reads w in
  let t0 := u32 (uptime env c) in
  let reg := cfw_register_svc_available (cfw_init_handle env) (BLE_CORE_SERVICE_ID env) in
  submit_rc env (trace w ++ [PlatformInit; CfwInit]) reg = BLE_STATUS_SUCCESS ->
  (forall i, (i <= k)%nat -> quiet (inbound env (polls w + i))) ->
  (forall i, (i < k)%nat -> u32 (uptime env (c + 1 + i)) <= deadline w) ->
  deadline w < u32 (uptime env (c + 1 + k)) ->
  (k < fuel)%nat ->
  exists w',
    ble_client_init env fuel gap_cb gap_param gatts_cb gatts_param w
    = Some (BLE_STATUS_TIMEOUT, w')
    /\ submitted (trace w') = submitted (trace w) ++ [reg]
    /\ service_handle w' = service_handle w
    /\ ble_client_gap_event_cb w' = ble_client_gap_event_cb w
    /\ ble_client_gap_event_param w' = ble_client_gap_event_param w
    /\ ble_client_gatts_event_cb w' = ble_client_gatts_event_cb w
    /\ ble_client_gatts_event_param w' = ble_client_gatts_event_param w
    /\ clock_reads w' = (c + k + 2)%nat
    /\ (t0 + 32768 < 2 ^ 32 -> 32768 < u32 (uptime env (clock_reads w' - 1)) - t0).
Proof.
  intros c t0 reg Hacc Hq Hearly Hlate Hfuel.
  set (w4 := emit (Submitted reg)
               (set_sync_response 0
                  (set_client_handle (cfw_init_handle env)
                     (emit CfwInit (emit PlatformInit w))))).
  destruct (wait_for_condition_times_out k fuel w4) as (w' & Hwait & Hidle & Hcr & Hpo);
    try done.
  exists w'. unfold ble_client_init, submit.
  cbn [trace emit set_client_handle set_sync_response set_sync client_handle].
  rewrite <- app_assoc. cbn [app]. fold reg. rewrite Hacc. cbn [nonzero].
  fold w4. rewrite Hwait. cbn.
  destruct Hidle as (_ & Hsvc & _ & Hg1 & Hg2 & Hg3 & Hg4 & Hsub).
  repeat split; try done.
  - rewrite Hsub. cbn. rewrite !submitted_app. cbn. by rewrite !app_nil_r.
  - intros Hnowrap. rewrite Hcr. cbn. fold c.
    replace (c + k + 2 - 1)%nat with (c + 1 + k)%nat by lia.
    assert (Hdl : deadline w = t0 + 32768).
    { unfold deadline. fold c t0. apply u32_small.
      pose proof (u32_range (uptime env c)) as Hr. fold t0 in Hr. lia. }
    lia.
Qed.

(** ** Connection events *)

(** Caller memory after that call, the subscriber having run in [seen]. *)
Definition gap_call_mem (tag : ble_client_gap_event_t) (evt : ble_gap_event)
    (seen w : World) : gmap Z object :=
  if ble_client_gap_event_cb w =? NULL then mem w
  else gap_cb_code env (ble_client_gap_event_cb w) tag evt
         (ble_client_gap_event_param w) seen.

(** C6.  A connect event leaves the session connected on the event's
    connection handle, and the GAP subscriber, when one is registered, is
    called with the connected tag in a world that already shows both; a
    disconnect event leaves the session disconnected, and the subscriber is
    called with the disconnected tag in a world that already shows it.
    Right after a disconnect event the three gated operations return
    WrongState and change nothing; right after a connect event they pass the
    gate: whenever one of them returns, its request has gone to the
    substrate on the event's connection handle. *)
Theorem connection_events_update_session_first (evt : ble_gap_event) (w : World) :
  let up := dispatch (MSG_ID_BLE_GAP_CONNECT_EVT evt) w in
  let down := dispatch (MSG_ID_BLE_GAP_DISCONNECT_EVT evt) w in
  let id := evt_conn_handle evt in
  (connected up = true /\ conn_handle up = id
   /\ trace up = trace w ++ gap_call BLE_CLIENT_GAP_EVENT_CONNECTED evt w
                   ++ [MsgFree (MSG_ID_BLE_GAP_CONNECT_EVT evt)]
   /\ mem up = gap_call_mem BLE_CLIENT_GAP_EVENT_CONNECTED evt
                 (set_connected true (set_conn_handle id w)) w)
  /\ (connected down = false
      /\ trace down = trace w ++ gap_call BLE_CLIENT_GAP_EVENT_DISCONNECTED evt w
                         ++ [MsgFree (MSG_ID_BLE_GAP_DISCONNECT_EVT evt)]
      /\ mem down = gap_call_mem BLE_CLIENT_GAP_EVENT_DISCONNECTED evt
                      (set_connected false w) w)
  /\ (forall fuel value_handle len p_value offset reason indication enable,
        ble_client_gatts_send_notif_ind env fuel value_handle len p_value offset
          indication down
        = Some (BLE_STATUS_WRONG_STATE, down)
        /\ ble_client_gap_disconnect env fuel reason down
           = Some (BLE_STATUS_WRONG_STATE, down)
        /\ ble_client_gap_set_rssi_report env fuel enable down
           = Some (BLE_STATUS_WRONG_STATE, down))
  /\ (forall fuel value_handle len p_value offset reason indication enable r w',
        let ind_params :=
          {| val_handle := value_handle; ind_len := len; ind_p_data := p_value;
             ind_offset := offset |} in
        (ble_client_gatts_send_notif_ind env fuel value_handle len p_value offset
           indication up
         = Some (r, w') ->
         Submitted (if indication
                    then ble_gatts_send_ind (service_handle w) id ind_params
                    else ble_gatts_send_notif (service_handle w) id ind_params)
         ∈ trace w')
        /\ (ble_client_gap_disconnect env fuel reason up = Some (r, w') ->
            Submitted (ble_gap_disconnect (service_handle w) id reason) ∈ trace w')
        /\ (ble_client_gap_set_rssi_report env fuel enable up = Some (r, w') ->
            Submitted (ble_gap_set_rssi_report (service_handle w) id
                         (if enable then BLE_GAP_RSSI_ENABLE_REPORT
                          else BLE_GAP_RSSI_DISABLE_REPORT)) ∈ trace w')).
Proof.
  intros up down id.
  assert (Hup : connected up = true /\ conn_handle up = id
                /\ service_handle up = service_handle w).
  { subst up id. unfold_handlers. cbn. by destruct (_ =? _). }
  assert (Hdown : connected down = false).
  { subst down. unfold_handlers. cbn. by destruct (_ =? _). }
  destruct Hup as (Hc & Hid & Hsvc).
  split; [|split; [|split]].
  - repeat split; try done;
      [exact (dispatch_trace (MSG_ID_BLE_GAP_CONNECT_EVT evt) w)|].
    subst up id. unfold gap_call_mem. unfold_handlers. cbn. by destruct (_ =? _).
  - repeat split; try done;
      [exact (dispatch_trace (MSG_ID_BLE_GAP_DISCONNECT_EVT evt) w)|].
    subst down. unfold gap_call_mem. unfold_handlers. cbn. by destruct (_ =? _).
  - intros. auto using send_notif_ind_gate, gap_disconnect_gate, set_rssi_report_gate.
  - intros. rewrite <- Hsvc, <- Hid. repeat split; intros Hrun.
    + by apply (send_notif_ind_submits _ _ _ _ _ _ _ _ _ Hc Hrun).
    + by apply (gap_disconnect_submits _ _ _ _ _ Hc Hrun).
    + by apply (set_rssi_report_submits _ _ _ _ _ Hc Hrun).
Qed.

(** ** Which messages complete the slot, and with what *)

(** The status a completing message leaves in the slot: the one it
    carries, or Success for the availability event and the open-service
    response, which carry none. *)
Definition carried_status (msg : cfw_message) : BleStatus :=
  match msg with
  | MSG_ID_BLE_GAP_WR_CONF_RSP s | MSG_ID_BLE_GAP_RD_BDA_RSP s _
  | MSG_ID_BLE_GAP_SM_CONFIG_RSP s | MSG_ID_BLE_GAP_WR_ADV_DATA_RSP s
  | MSG_ID_BLE_GATTS_ADD_SERVICE_RSP s _ | MSG_ID_BLE_GATTS_ADD_CHARACTERISTIC_RSP s _
  | MSG_ID_BLE_GATTS_ADD_DESCRIPTOR_RSP s _ | MSG_ID_BLE_GATTS_SET_ATTRIBUTE_VALUE_RSP s
  | MSG_ID_BLE_GATTS_SEND_NOTIF_RSP s | MSG_ID_BLE_GATTS_SEND_IND_RSP s
  | MSG_ID_BLE_GAP_DISCONNECT_RSP s | MSG_ID_BLE_GAP_SET_RSSI_REPORT_RSP s => s
  | _ => BLE_STATUS_SUCCESS
  end.

Lemma dispatch_completes (msg : cfw_message) (w : World) :
  completes msg = true ->
  response (sync (dispatch msg w)) = 1
  /\ status (sync (dispatch msg w)) = carried_status msg
  /\ param (sync (dispatch msg w)) = param (sync w).
Proof.
  destruct msg; cbn; try discriminate; intros Hq;
    try apply bool_decide_eq_true in Hq;
    unfold_handlers; cbn; handler_cases; done.
Qed.

Lemma dispatch_counters (msg : cfw_message) (w : World) :
  clock_reads (dispatch msg w) = clock_reads w /\ polls (dispatch msg w) = polls w.
Proof. by destruct (dispatch_frame msg w) as (_ & _ & _ & _ & _ & ? & ? & _). Qed.

(** The deadline of a wait entered when the clock has been read [n] times. *)
Definition deadline_at (n : nat) : Z := u32 (u32 (uptime env n) + 32768).

(** The wait ends in Success as soon as a message completes the slot.
    [wq] is the world the completing message [rsp] finds. *)
Lemma wait_for_condition_completes (k fuel : nat) (w : World)
    (pre : list cfw_message) (rsp : cfw_message) :
  response (sync w) = 0 ->
  (forall i, (i < k)%nat -> quiet (inbound env (polls w + i))) ->
  inbound env (polls w + k) = pre ++ [rsp] -> quiet pre -> completes rsp = true ->
  (forall i, (i < k)%nat ->
     u32 (uptime env (clock_reads w + 1 + i)) <= deadline_at (clock_reads w)) ->
  (k < fuel)%nat ->
  exists wq,
    idles w wq
    /\ clock_reads wq = (clock_reads w + 1 + k)%nat
    /\ polls wq = (polls w + k + 1)%nat
    /\ wait_for_condition env fuel w = Some (BLE_STATUS_SUCCESS, dispatch rsp wq).
Proof.
  intros Hr Hq Hin Hpre Hdone Hc Hfuel.
  set (w0 := tick_clock w).
  assert (Hspin : idles w0 (spin k w0)) by (by apply spin_idles).
  destruct (spin_counters k w0) as [Hcr Hpo].
  set (wq := handle_all pre (tick_poll (spin k w0))).
  destruct (handle_all_counters pre (tick_poll (spin k w0))) as [Hcq Hpq].
  exists wq. split; [|split; [|split]].
  - apply (idles_trans w w0); [by repeat split|].
    apply (idles_trans w0 (spin k w0)); [done|].
    apply (idles_trans _ (tick_poll (spin k w0))); [by repeat split|].
    by apply handle_all_idles.
  - subst wq. rewrite Hcq. cbn. rewrite Hcr. cbn. lia.
  - subst wq. rewrite Hpq. cbn. rewrite Hpo. cbn. lia.
  - rewrite wait_for_condition_unfold.
    replace fuel with (k + S (fuel - S k))%nat by lia.
    rewrite wait_loop_spin; [|done|done|].
    2:{ intros i Hi. cbn. clock_index (clock_reads w + 1 + i)%nat. by apply Hc. }
    fold w0. cbn [wait_loop].
    rewrite deliver_handle_all, Hpo. cbn [polls tick_clock w0].
    rewrite Hin, handle_all_snoc. fold wq.
    destruct (dispatch_completes rsp wq Hdone) as (-> & _). done.
Qed.

(** The harvest after the wait: the status the completing message left. *)
Lemma wait_and_harvest_first_completion (k fuel : nat) (w : World)
    (pre : list cfw_message) (rsp : cfw_message) :
  response (sync w) = 0 ->
  (forall i, (i < k)%nat -> quiet (inbound env (polls w + i))) ->
  inbound env (polls w + k) = pre ++ [rsp] -> quiet pre -> completes rsp = true ->
  (forall i, (i < k)%nat ->
     u32 (uptime env (clock_reads w + 1 + i)) <= deadline_at (clock_reads w)) ->
  (k < fuel)%nat ->
  exists wq,
    idles w wq
    /\ clock_reads wq = (clock_reads w + 1 + k)%nat
    /\ polls wq = (polls w + k + 1)%nat
    /\ wait_and_harvest env fuel w = Some (carried_status rsp, dispatch rsp wq).
Proof.
  intros Hr Hq Hin Hpre Hdone Hc Hfuel.
  destruct (wait_for_condition_completes k fuel w pre rsp)
    as (wq & Hidle & Hcr & Hpo & Hwait); try done.
  exists wq. repeat split; try done; try apply Hidle.
  unfold wait_and_harvest. rewrite Hwait. cbn -[ble_core_client_handle_message].
  rewrite bool_decide_eq_false_2 by (intros Hne; by apply Hne).
  by destruct (dispatch_completes rsp wq Hdone) as (_ & -> & _).
Qed.

(** The harvest after a wait that found nothing: Timeout. *)
Lemma wait_and_harvest_times_out (k fuel : nat) (w : World) :
  response (sync w) = 0 ->
  (forall i, (i <= k)%nat -> quiet (inbound env (polls w + i))) ->
  (forall i, (i < k)%nat ->
     u32 (uptime env (clock_reads w + 1 + i)) <= deadline_at (clock_reads w)) ->
  deadline_at (clock_reads w) < u32 (uptime env (clock_reads w + 1 + k)) ->
  (k < fuel)%nat ->
  exists w',
    wait_and_harvest env fuel w = Some (BLE_STATUS_TIMEOUT, w')
    /\ idles w w'
    /\ clock_reads w' = (clock_reads w + k + 2)%nat
    /\ polls w' = (polls w + k + 1)%nat.
Proof.
  intros Hr Hq Hc Hlate Hfuel.
  destruct (wait_for_condition_times_out k fuel w) as (w' & Hwait & Hrest); try done.
  exists w'. split; [|done]. unfold wait_and_harvest. by rewrite Hwait.
Qed.

(** The settling delay of [ble_client_init] ends at the first reading that
    is not below [delay_until], and only the clock has been consulted. *)
Fixpoint reads (d : nat) (w : World) : World :=
  match d with
  | O => w
  | S d => reads d (tick_clock w)
  end.

Lemma reads_counters (d : nat) (w : World) :
  clock_reads (reads d w) = (clock_reads w + d)%nat.
Proof.
  revert w. induction d as [|d IH]; intros w; cbn; [lia|]. rewrite IH. cbn. lia.
Qed.

Lemma reads_frame (d : nat) (w : World) :
  idles w (reads d w) /\ polls (reads d w) = polls w /\ mem (reads d w) = mem w
  /\ trace (reads d w) = trace w /\ connected (reads d w) = connected w
  /\ conn_handle (reads d w) = conn_handle w.
Proof.
  revert w. induction d as [|d IH]; intros w; cbn; [by repeat split|].
  destruct (IH (tick_clock w)) as (Hi & -> & -> & -> & -> & ->).
  split; [|done]. apply (idles_trans w (tick_clock w)); [by repeat split | done].
Qed.

Lemma delay_loop_ends (d fuel : nat) (delay_until : Z) (w : World) :
  (forall j, (j < d)%nat -> u32 (uptime env (clock_reads w + j)) < delay_until) ->
  delay_until <= u32 (uptime env (clock_reads w + d)) ->
  (d < fuel)%nat ->
  delay_loop env fuel delay_until w = Some (reads (S d) w).
Proof.
  revert fuel w. induction d as [|d IH]; intros fuel w Hbelow Hreach Hfuel;
    (destruct fuel as [|fuel]; [lia|]); cbn [delay_loop]; unfold get_uptime_32k.
  - rewrite Nat.add_0_r in Hreach.
    destruct (Z.ltb_spec (u32 (uptime env (clock_reads w))) delay_until); [lia|done].
  - specialize (Hbelow 0%nat ltac:(lia)) as H0. rewrite Nat.add_0_r in H0.
    destruct (Z.ltb_spec (u32 (uptime env (clock_reads w))) delay_until); [|lia].
    rewrite (IH fuel (tick_clock w)); [done| | |lia].
    + intros j Hj. cbn. specialize (Hbelow (S j) ltac:(lia)).
      by rewrite Nat.add_succ_r in Hbelow.
    + cbn. by rewrite Nat.add_succ_r in Hreach.
Qed.

(** ** The blocking operations, one by one *)

(** The eleven operations that arm the slot, submit and wait, with their
    arguments. *)
Inductive blocking_operation : Type :=
  | OpSetEnableConfig (name appearance tx_power : Z)
  | OpGetBda (p_bda : Z)
  | OpWrAdvData (adv_data adv_data_len : Z)
  | OpAddService (uuid type svc_handle : Z)
  | OpIncludeService (primary_svc_handle included_svc_handle : Z)
  | OpAddCharacteristic (svc_handle char_data handles : Z)
  | OpAddDescriptor (svc_handle desc handle : Z)
  | OpSetAttributeValue (value_handle len p_value offset : Z)
  | OpSendNotifInd (value_handle len p_value offset : Z) (indication : bool)
  | OpDisconnect (reason : Z)
  | OpSetRssiReport (enable : bool).

Definition perform (op : blocking_operation) (fuel : nat) (w : World)
    : option (BleStatus * World) :=
  match op with
  | OpSetEnableConfig name appearance tx_power =>
      ble_client_gap_set_enable_config env fuel name appearance tx_power w
  | OpGetBda p_bda => ble_client_gap_get_bda env fuel p_bda w
  | OpWrAdvData adv_data adv_data_len =>
      ble_client_gap_wr_adv_data env fuel adv_data adv_data_len w
  | OpAddService uuid type svc_handle =>
      ble_client_gatts_add_service env fuel uuid type svc_handle w
  | OpIncludeService primary included =>
      ble_client_gatts_include_service env fuel primary included w
  | OpAddCharacteristic svc_handle char_data handles =>
      ble_client_gatts_add_characteristic env fuel svc_handle char_data handles w
  | OpAddDescriptor svc_handle desc handle =>
      ble_client_gatts_add_descriptor env fuel svc_handle desc handle w
  | OpSetAttributeValue value_handle len p_value offset =>
      ble_client_gatts_set_attribute_value env fuel value_handle len p_value offset w
  | OpSendNotifInd value_handle len p_value offset indication =>
      ble_client_gatts_send_notif_ind env fuel value_handle len p_value offset indication w
  | OpDisconnect reason => ble_client_gap_disconnect env fuel reason w
  | OpSetRssiReport enable => ble_client_gap_set_rssi_report env fuel enable w
  end.

(** The operations behind the gate on the connection state. *)
Definition needs_connection (op : blocking_operation) : bool :=
  match op with
  | OpSendNotifInd _ _ _ _ _ | OpDisconnect _ | OpSetRssiReport _ => true
  | _ => false
  end.

(** The operations that wait once; [ble_client_gap_set_enable_config] has
    a second request and a second wait. *)
Definition single_wait (op : blocking_operation) : bool :=
  match op with
  | OpSetEnableConfig _ _ _ => false
  | _ => true
  end.

(** The connection parameters and the configuration
    [ble_client_gap_set_enable_config] sends first. *)
Definition preferred_conn_params : ble_gap_connection_params :=
  {| interval_min := MIN_CONN_INTERVAL; interval_max := MAX_CONN_INTERVAL;
     slave_latency := SLAVE_LATENCY; link_sup_to := CONN_SUP_TIMEOUT |}.

Definition enable_config (name appearance tx_power : Z) : ble_wr_config :=
  {| p_bda := NULL; p_name := name; appearance := appearance; tx_power := tx_power;
     peripheral_conn_params := preferred_conn_params;
     central_conn_params := preferred_conn_params |}.

(** The security-manager parameters it sends second. *)
Definition bonding_params : ble_gap_sm_config_params :=
  {| sm_options := BLE_GAP_BONDING; io_caps := BLE_GAP_IO_NO_INPUT_NO_OUTPUT;
     key_size := 16 |}.

(** The request an operation submits first. *)
Definition first_request (op : blocking_operation) (w : World) : request :=
  let svc := service_handle w in
  match op with
  | OpSetEnableConfig name appearance tx_power =>
      ble_gap_set_enable_config svc (enable_config name appearance tx_power)
  | OpGetBda _ => ble_gap_read_bda svc
  | OpWrAdvData adv_data adv_data_len =>
      ble_gap_wr_adv_data svc {| p_data := adv_data; len := adv_data_len |}
  | OpAddService uuid type _ => ble_gatts_add_service svc uuid type
  | OpIncludeService primary included => ble_gatts_add_included_svc svc primary included
  | OpAddCharacteristic svc_handle char_data _ =>
      ble_gatts_add_characteristic svc svc_handle char_data
  | OpAddDescriptor _ desc _ => ble_gatts_add_descriptor svc desc
  | OpSetAttributeValue value_handle len p_value offset =>
      ble_gatts_set_attribute_value svc value_handle len p_value offset
  | OpSendNotifInd value_handle len p_value offset indication =>
      let ind_params :=
        {| val_handle := value_handle; ind_len := len; ind_p_data := p_value;
           ind_offset := offset |} in
      if indication then ble_gatts_send_ind svc (conn_handle w) ind_params
      else ble_gatts_send_notif svc (conn_handle w) ind_params
  | OpDisconnect reason => ble_gap_disconnect svc (conn_handle w) reason
  | OpSetRssiReport enable =>
      ble_gap_set_rssi_report svc (conn_handle w)
        (if enable then BLE_GAP_RSSI_ENABLE_REPORT else BLE_GAP_RSSI_DISABLE_REPORT)
  end.

(** The destination an operation puts into the slot, if it has one. *)
Definition destination (op : blocking_operation) : option Z :=
  match op with
  | OpGetBda p | OpAddService _ _ p | OpAddCharacteristic _ _ p | OpAddDescriptor _ _ p =>
      Some p
  | _ => None
  end.

(** The world once the slot is armed. *)
Definition arm (op : blocking_operation) (w : World) : World :=
  match destination op with
  | Some p => set_sync_param p (set_sync_response 0 w)
  | None => set_sync_response 0 w
  end.

(** The world once the first request has been handed over. *)
Definition launched (op : blocking_operation) (w : World) : World :=
  emit (Submitted (first_request op w)) (arm op w).

(** The gate, as a condition on the world an operation is called in. *)
Definition gate_open (op : blocking_operation) (w : World) : Prop :=
  needs_connection op = true -> connected w = true.

Ltac unfold_operations :=
  unfold perform, ble_client_gap_set_enable_config, ble_client_gap_get_bda,
    ble_client_gap_wr_adv_data, ble_client_gatts_add_service,
    ble_client_gatts_include_service, ble_client_gatts_add_characteristic,
    ble_client_gatts_add_descriptor, ble_client_gatts_set_attribute_value,
    ble_client_gatts_send_notif_ind, ble_client_gap_disconnect,
    ble_client_gap_set_rssi_report, submit.

Lemma perform_rejected (op : blocking_operation) (fuel : nat) (w : World) :
  gate_open op w ->
  nonzero (submit_rc env (trace w) (first_request op w)) = true ->
  perform op fuel w = Some (BLE_STATUS_ERROR, launched op w).
Proof.
  unfold gate_open, launched, arm. intros Hgate Hrc.
  destruct op; cbn in Hgate, Hrc |- *; try rewrite (Hgate eq_refl);
    unfold_operations; cbn -[wait_and_harvest wait_for_condition];
    try rewrite (Hgate eq_refl); cbn -[wait_and_harvest wait_for_condition].
  all: try (destruct indication; cbn -[wait_and_harvest] in Hrc |- *).
  all: unfold enable_config, preferred_conn_params in Hrc.
  all: by rewrite Hrc.
Qed.

Lemma perform_accepted (op : blocking_operation) (fuel : nat) (w : World) :
  gate_open op w ->
  single_wait op = true ->
  nonzero (submit_rc env (trace w) (first_request op w)) = false ->
  perform op fuel w = wait_and_harvest env fuel (launched op w).
Proof.
  unfold gate_open, launched, arm. intros Hgate Hsingle Hrc.
  destruct op; try discriminate Hsingle; cbn in Hgate, Hrc |- *;
    unfold_operations; cbn -[wait_and_harvest];
    try rewrite (Hgate eq_refl); cbn -[wait_and_harvest].
  all: try (destruct indication; cbn -[wait_and_harvest] in Hrc |- *).
  all: by rewrite Hrc.
Qed.

Lemma nonzero_false (s : BleStatus) : nonzero s = false <-> s = BLE_STATUS_SUCCESS.
Proof. by destruct s. Qed.

Lemma nonzero_true (s : BleStatus) : nonzero s = true <-> s <> BLE_STATUS_SUCCESS.
Proof. by destruct s. Qed.

(** What an operation does once its first wait has ended in Success. *)
Definition after_first_wait (op : blocking_operation) (fuel : nat) (w : World)
    : option (BleStatus * World) :=
  match op with
  | OpSetEnableConfig _ _ _ =>
      if nonzero (status (sync w)) then Some (status (sync w), w)
      else
        let w := set_sync_response 0 w in
        let '(rc, w) := submit env (ble_gap_sm_config (service_handle w) bonding_params) w in
        if nonzero rc then Some (BLE_STATUS_ERROR, w)
        else wait_and_harvest env fuel w
  | _ => Some (status (sync w), w)
  end.

Lemma perform_unfold (op : blocking_operation) (fuel : nat) (w : World) :
  gate_open op w ->
  nonzero (submit_rc env (trace w) (first_request op w)) = false ->
  perform op fuel w
  = '(sts, w1) ← wait_for_condition env fuel (launched op w);
    if bool_decide (sts <> BLE_STATUS_SUCCESS) then Some (sts, w1)
    else after_first_wait op fuel w1.
Proof.
  unfold gate_open, launched, arm. intros Hgate Hrc.
  destruct op; cbn in Hgate, Hrc |- *;
    unfold_operations; unfold wait_and_harvest;
    cbn -[wait_for_condition]; try rewrite (Hgate eq_refl); cbn -[wait_for_condition].
  all: try (destruct indication; cbn -[wait_for_condition] in Hrc |- *).
  all: unfold enable_config, preferred_conn_params in Hrc.
  all: by rewrite Hrc.
Qed.

Lemma launched_frame (op : blocking_operation) (w : World) :
  clock_reads (launched op w) = clock_reads w
  /\ polls (launched op w) = polls w
  /\ mem (launched op w) = mem w
  /\ response (sync (launched op w)) = 0
  /\ trace (launched op w) = trace w ++ [Submitted (first_request op w)]
  /\ service_handle (launched op w) = service_handle w
  /\ connected (launched op w) = connected w.
Proof. unfold launched, arm. by destruct (destination op). Qed.

Lemma launched_param (op : blocking_operation) (w : World) :
  param (sync (launched op w)) = default (param (sync w)) (destination op).
Proof. unfold launched, arm. by destruct (destination op). Qed.

Lemma submitted_launched (op : blocking_operation) (w w' : World) :
  idles (launched op w) w' ->
  submitted (trace w') = submitted (trace w) ++ [first_request op w].
Proof.
  intros (_ & _ & _ & _ & _ & _ & _ & ->).
  destruct (launched_frame op w) as (_ & _ & _ & _ & -> & _).
  by rewrite submitted_app.
Qed.

(** ** Submission failure, timeout and completion of a blocking call *)

(** A request the substrate does not accept makes the operation return
    GenericError at once, whatever the substrate's own code and whatever
    the fuel: the request is on record, the slot stays armed, and neither
    the clock nor the completion flag has been read. *)
Theorem rejected_submission_returns_error_at_once
    (op : blocking_operation) (fuel : nat) (w : World) :
  gate_open op w ->
  submit_rc env (trace w) (first_request op w) <> BLE_STATUS_SUCCESS ->
  exists w',
    perform op fuel w = Some (BLE_STATUS_ERROR, w')
    /\ trace w' = trace w ++ [Submitted (first_request op w)]
    /\ response (sync w') = 0
    /\ clock_reads w' = clock_reads w /\ polls w' = polls w
    /\ mem w' = mem w.
Proof.
  intros Hgate Hrc. exists (launched op w).
  destruct (launched_frame op w) as (? & ? & ? & ? & ? & _).
  split; [|done]. apply perform_rejected; [done|]. by apply nonzero_true.
Qed.

Lemma perform_times_out
    (op : blocking_operation) (k fuel : nat) (w : World) :
  gate_open op w ->
  submit_rc env (trace w) (first_request op w) = BLE_STATUS_SUCCESS ->
  (forall i, (i <= k)%nat -> quiet (inbound env (polls w + i))) ->
  (forall i, (i < k)%nat ->
     u32 (uptime env (clock_reads w + 1 + i)) <= deadline_at (clock_reads w)) ->
  deadline_at (clock_reads w) < u32 (uptime env (clock_reads w + 1 + k)) ->
  (k < fuel)%nat ->
  exists w',
    perform op fuel w = Some (BLE_STATUS_TIMEOUT, w')
    /\ submitted (trace w') = submitted (trace w) ++ [first_request op w]
    /\ sync w' = sync (arm op w)
    /\ clock_reads w' = (clock_reads w + k + 2)%nat
    /\ polls w' = (polls w + k + 1)%nat.
Proof.
  intros Hgate Hrc Hq Hc Hlate Hfuel.
  destruct (launched_frame op w) as (Hcr & Hpo & _ & Hr & _).
  destruct (wait_for_condition_times_out k fuel (launched op w))
    as (w' & Hwait & Hidle & Hcr' & Hpo'); try done.
  - by rewrite Hpo.
  - unfold deadline. rewrite Hcr. exact Hc.
  - unfold deadline. rewrite Hcr. exact Hlate.
  - exists w'. rewrite perform_unfold by (done || by apply nonzero_false).
    rewrite Hwait. cbn. repeat split.
    + by apply submitted_launched.
    + by destruct Hidle as (-> & _).
    + by rewrite Hcr', Hcr.
    + by rewrite Hpo', Hpo.
Qed.

(** Every blocking operation whose request was accepted returns Timeout
    at the first clock reading beyond its deadline when nothing that
    arrives until then completes the slot; the request it submitted is the
    only one, and the slot is still as armed. *)
Theorem blocking_call_times_out
    (op : blocking_operation) (k fuel : nat) (w : World) :
  gate_open op w ->
  submit_rc env (trace w) (first_request op w) = BLE_STATUS_SUCCESS ->
  (forall i, (i <= k)%nat -> quiet (inbound env (polls w + i))) ->
  (forall i, (i < k)%nat ->
     u32 (uptime env (clock_reads w + 1 + i)) <= deadline_at (clock_reads w)) ->
  deadline_at (clock_reads w) < u32 (uptime env (clock_reads w + 1 + k)) ->
  (k < fuel)%nat ->
  exists w',
    perform op fuel w = Some (BLE_STATUS_TIMEOUT, w')
    /\ submitted (trace w') = submitted (trace w) ++ [first_request op w]
    /\ sync w' = sync (arm op w)
    /\ clock_reads w' = (clock_reads w + k + 2)%nat
    /\ polls w' = (polls w + k + 1)%nat.
Proof. apply perform_times_out. Qed.

(** The last message of a batch that completes the slot, if any does. *)
Fixpoint last_completing (l : list cfw_message) : option cfw_message :=
  match l with
  | [] => None
  | msg :: l =>
      match last_completing l with
      | Some m => Some m
      | None => if completes msg then Some msg else None
      end
  end.

(** A batch of messages leaves in the slot what its last completing
    message left there; a batch without one leaves the slot alone. *)
Lemma handle_all_sync (l : list cfw_message) (w : World) :
  sync (handle_all l w)
  = match last_completing l with
    | Some m => {| response := 1; status := carried_status m; param := param (sync w) |}
    | None => sync w
    end.
Proof.
  revert w. induction l as [|msg l IH]; intros w; [done|].
  rewrite handle_all_cons, IH. cbn [last_completing].
  destruct (last_completing l) as [m|].
  - destruct (completes msg) eqn:Hc.
    + by destruct (dispatch_completes msg w Hc) as (_ & _ & ->).
    + by destruct (dispatch_quiet msg w Hc) as (-> & _).
  - destruct (completes msg) eqn:Hc.
    + destruct (dispatch_completes msg w Hc) as (Hr & Hs & Hp).
      destruct (sync (dispatch msg w)). cbn in *. by subst.
    + by destruct (dispatch_quiet msg w Hc) as (-> & _).
Qed.

Lemma handle_all_submitted (l : list cfw_message) (w : World) :
  submitted (trace (handle_all l w)) = submitted (trace w).
Proof.
  revert w. induction l as [|msg l IH]; intros w; [done|].
  rewrite handle_all_cons, IH.
  by destruct (dispatch_frame msg w) as (_ & _ & _ & _ & _ & _ & _ & ->).
Qed.

(** The harvest after a wait that a batch of messages ended. *)
Lemma wait_and_harvest_batch (k fuel : nat) (w : World)
    (batch : list cfw_message) (rsp : cfw_message) :
  response (sync w) = 0 ->
  (forall i, (i < k)%nat -> quiet (inbound env (polls w + i))) ->
  inbound env (polls w + k) = batch -> last_completing batch = Some rsp ->
  (forall i, (i < k)%nat ->
     u32 (uptime env (clock_reads w + 1 + i)) <= deadline_at (clock_reads w)) ->
  (k < fuel)%nat ->
  exists w',
    wait_and_harvest env fuel w = Some (carried_status rsp, w')
    /\ submitted (trace w') = submitted (trace w)
    /\ clock_reads w' = (clock_reads w + 1 + k)%nat
    /\ polls w' = (polls w + k + 1)%nat.
Proof.
  intros Hr Hq Hin Hlast Hc Hfuel.
  set (w0 := tick_clock w).
  assert (Hspin : idles w0 (spin k w0)) by (by apply spin_idles).
  destruct (spin_counters k w0) as [Hcr Hpo].
  set (w' := handle_all batch (tick_poll (spin k w0))).
  destruct (handle_all_counters batch (tick_poll (spin k w0))) as [Hcq Hpq].
  pose proof (handle_all_sync batch (tick_poll (spin k w0))) as Hsync.
  rewrite Hlast in Hsync. fold w' in Hcq, Hpq, Hsync.
  exists w'. split; [|split; [|split]].
  - unfold wait_and_harvest. rewrite wait_for_condition_unfold.
    replace fuel with (k + S (fuel - S k))%nat by lia.
    rewrite wait_loop_spin; [|done|done|].
    2:{ intros i Hi. cbn. clock_index (clock_reads w + 1 + i)%nat. by apply Hc. }
    fold w0. cbn [wait_loop].
    rewrite deliver_handle_all, Hpo. cbn [polls tick_clock w0].
    rewrite Hin. fold w'. rewrite Hsync. cbn.
    rewrite bool_decide_eq_false_2 by (intros Hne; by apply Hne).
    by rewrite Hsync.
  - subst w'. rewrite handle_all_submitted.
    destruct Hspin as (_ & _ & _ & _ & _ & _ & _ & Hs). exact Hs.
  - rewrite Hcq. cbn. rewrite Hcr. cbn. lia.
  - rewrite Hpq. cbn. rewrite Hpo. cbn. lia.
Qed.

(** A single-wait operation is ended by the first batch of messages (the
    messages handled between two reads of the completion flag) that
    contains a completing one, and returns the status the last completing
    message of that batch left in the slot: the handlers overwrite one
    another's status, a failure status reported by the remote side comes
    back unchanged, and so does the status of a response that belongs to
    some other request, the slot having no way to tell them apart. *)
Theorem blocking_call_returns_last_completion_of_batch
    (op : blocking_operation) (rsp : cfw_message) (batch : list cfw_message)
    (k fuel : nat) (w : World) :
  single_wait op = true ->
  gate_open op w ->
  submit_rc env (trace w) (first_request op w) = BLE_STATUS_SUCCESS ->
  (forall i, (i < k)%nat -> quiet (inbound env (polls w + i))) ->
  inbound env (polls w + k) = batch -> last_completing batch = Some rsp ->
  (forall i, (i < k)%nat ->
     u32 (uptime env (clock_reads w + 1 + i)) <= deadline_at (clock_reads w)) ->
  (k < fuel)%nat ->
  exists w',
    perform op fuel w = Some (carried_status rsp, w')
    /\ submitted (trace w') = submitted (trace w) ++ [first_request op w]
    /\ clock_reads w' = (clock_reads w + 1 + k)%nat
    /\ polls w' = (polls w + k + 1)%nat.
Proof.
  intros Hsingle Hgate Hrc Hq Hin Hlast Hc Hfuel.
  destruct (launched_frame op w) as (Hcr & Hpo & _ & Hr & Htr & _).
  destruct (wait_and_harvest_batch k fuel (launched op w) batch rsp)
    as (w' & Hwait & Hsub & Hcr' & Hpo'); try done.
  - by rewrite Hpo.
  - by rewrite Hpo.
  - by rewrite Hcr.
  - exists w'. rewrite perform_accepted by (done || by apply nonzero_false).
    repeat split; [done| | |].
    + rewrite Hsub, Htr, submitted_app. done.
    + by rewrite Hcr', Hcr.
    + by rewrite Hpo', Hpo.
Qed.


(** ** The two stages of [ble_client_gap_set_enable_config] *)

(** The service handle an inbound message leaves behind. *)
Definition service_handle_after (msg : cfw_message) (w : World) : Z :=
  match msg with
  | MSG_ID_CFW_OPEN_SERVICE h => h
  | _ => service_handle w
  end.

Lemma dispatch_service_handle (msg : cfw_message) (w : World) :
  service_handle (dispatch msg w) = service_handle_after msg w.
Proof. destruct msg; unfold_handlers; cbn; handler_cases; reflexivity. Qed.

(** When the first completion carries a failure status, that status is
    the result and the security configuration is never sent. *)
Theorem enable_config_stops_at_first_failure
    (name appearance tx_power : Z) (rsp : cfw_message) (pre : list cfw_message)
    (k fuel : nat) (w : World) :
  let op := OpSetEnableConfig name appearance tx_power in
  submit_rc env (trace w) (first_request op w) = BLE_STATUS_SUCCESS ->
  (forall i, (i < k)%nat -> quiet (inbound env (polls w + i))) ->
  inbound env (polls w + k) = pre ++ [rsp] -> quiet pre -> completes rsp = true ->
  carried_status rsp <> BLE_STATUS_SUCCESS ->
  (forall i, (i < k)%nat ->
     u32 (uptime env (clock_reads w + 1 + i)) <= deadline_at (clock_reads w)) ->
  (k < fuel)%nat ->
  exists w',
    ble_client_gap_set_enable_config env fuel name appearance tx_power w
    = Some (carried_status rsp, w')
    /\ submitted (trace w') = submitted (trace w) ++ [first_request op w].
Proof.
  intros op Hrc Hq Hin Hpre Hdone Hfail Hc Hfuel.
  destruct (launched_frame op w) as (Hcr & Hpo & _ & Hr & _).
  destruct (wait_for_condition_completes k fuel (launched op w) pre rsp)
    as (wq & Hidle & _ & _ & Hwait); try done.
  exists (dispatch rsp wq).
  change (ble_client_gap_set_enable_config env fuel name appearance tx_power w)
    with (perform op fuel w).
  rewrite perform_unfold; [|done|by apply nonzero_false].
  rewrite Hwait. cbn -[ble_core_client_handle_message].
  rewrite bool_decide_eq_false_2 by (intros Hne; by apply Hne).
  destruct (dispatch_completes rsp wq Hdone) as (_ & Hst & _).
  destruct (dispatch_frame rsp wq) as (_ & _ & _ & _ & _ & _ & _ & Hs1).
  rewrite Hst. apply nonzero_true in Hfail. rewrite Hfail. split; [done|].
  rewrite Hs1. exact (submitted_launched op w wq Hidle).
Qed.

(** When the first completion carries Success, the security configuration
    (bonding, no input and no output, key size 16) is sent next, on the
    service handle then in force, and the status of the second completion
    is the result. *)
Theorem enable_config_runs_both_stages
    (name appearance tx_power : Z) (rsp1 rsp2 : cfw_message)
    (pre1 pre2 : list cfw_message) (k1 k2 fuel : nat) (w : World) :
  let op := OpSetEnableConfig name appearance tx_power in
  let p2 := (polls w + k1 + 1)%nat in
  let c2 := (clock_reads w + 1 + k1)%nat in
  let second := ble_gap_sm_config (service_handle_after rsp1 w) bonding_params in
  submit_rc env (trace w) (first_request op w) = BLE_STATUS_SUCCESS ->
  (forall i, (i < k1)%nat -> quiet (inbound env (polls w + i))) ->
  inbound env (polls w + k1) = pre1 ++ [rsp1] -> quiet pre1 -> completes rsp1 = true ->
  carried_status rsp1 = BLE_STATUS_SUCCESS ->
  (forall i, (i < k1)%nat ->
     u32 (uptime env (clock_reads w + 1 + i)) <= deadline_at (clock_reads w)) ->
  (forall t, submit_rc env t second = BLE_STATUS_SUCCESS) ->
  (forall i, (i < k2)%nat -> quiet (inbound env (p2 + i))) ->
  inbound env (p2 + k2) = pre2 ++ [rsp2] -> quiet pre2 -> completes rsp2 = true ->
  (forall i, (i < k2)%nat -> u32 (uptime env (c2 + 1 + i)) <= deadline_at c2) ->
  (k1 < fuel)%nat -> (k2 < fuel)%nat ->
  exists w',
    ble_client_gap_set_enable_config env fuel name appearance tx_power w
    = Some (carried_status rsp2, w')
    /\ submitted (trace w') = submitted (trace w) ++ [first_request op w; second].
Proof.
  intros op p2 c2 second Hrc Hq1 Hin1 Hpre1 Hdone1 Hok1 Hc1 Hrc2
    Hq2 Hin2 Hpre2 Hdone2 Hc2 Hfuel1 Hfuel2.
  destruct (launched_frame op w) as (Hcr & Hpo & _ & Hr & _ & Hsvc & _).
  destruct (wait_for_condition_completes k1 fuel (launched op w) pre1 rsp1)
    as (wq & Hidle & Hcq & Hpq & Hwait); try done.
  destruct (dispatch_completes rsp1 wq Hdone1) as (_ & Hst & _).
  destruct (dispatch_counters rsp1 wq) as [Hc1' Hp1'].
  destruct (dispatch_frame rsp1 wq) as (_ & _ & _ & _ & _ & _ & _ & Hs1).
  assert (Hsvc1 : service_handle (dispatch rsp1 wq) = service_handle_after rsp1 w).
  { rewrite dispatch_service_handle.
    destruct Hidle as (_ & Hsq & _). destruct rsp1; cbn; try done; by rewrite Hsq, Hsvc. }
  set (w3 := emit (Submitted second) (set_sync_response 0 (dispatch rsp1 wq))).
  destruct (wait_and_harvest_first_completion k2 fuel w3 pre2 rsp2)
    as (wq2 & Hidle2 & _ & _ & Hwait2); try done.
  { cbn -[ble_core_client_handle_message]. rewrite Hp1', Hpq, Hpo. exact Hq2. }
  { cbn -[ble_core_client_handle_message]. rewrite Hp1', Hpq, Hpo. exact Hin2. }
  { cbn -[ble_core_client_handle_message]. rewrite Hc1', Hcq, Hcr. exact Hc2. }
  exists (dispatch rsp2 wq2).
  change (ble_client_gap_set_enable_config env fuel name appearance tx_power w)
    with (perform op fuel w).
  rewrite perform_unfold; [|done|by apply nonzero_false].
  rewrite Hwait. cbn -[ble_core_client_handle_message wait_and_harvest].
  rewrite bool_decide_eq_false_2 by (intros Hne; by apply Hne).
  rewrite Hst, Hok1. cbn -[ble_core_client_handle_message wait_and_harvest].
  unfold submit. cbn -[ble_core_client_handle_message wait_and_harvest].
  rewrite Hsvc1. fold second. rewrite Hrc2.
  cbn -[ble_core_client_handle_message wait_and_harvest]. fold w3.
  rewrite Hwait2. split; [done|].
  destruct (dispatch_frame rsp2 wq2) as (_ & _ & _ & _ & _ & _ & _ & ->).
  destruct Hidle2 as (_ & _ & _ & _ & _ & _ & _ & ->).
  cbn -[ble_core_client_handle_message]. rewrite submitted_app, Hs1.
  rewrite (submitted_launched op w wq Hidle). cbn. by rewrite <- app_assoc.
Qed.

(** ** Initialisation, to the end *)

(** [ble_client_init] from the settling delay on, entered in the world the
    first wait has left. *)
Definition init_second_stage (fuel : nat)
    (gap_cb gap_param gatts_cb gatts_param : Z) (w : World)
    : option (BleStatus * World) :=
  let '(now, w) := get_uptime_32k env w in
  let delay_until := u32 (now + 32) in
  w ← delay_loop env fuel delay_until w;
  let w := set_sync_response 0 w in
  let '(_, w) := submit env (cfw_open_service (client_handle w)
                              (BLE_CORE_SERVICE_ID env)) w in
  '(sts, w) ← wait_for_condition env fuel w;
  if bool_decide (sts <> BLE_STATUS_SUCCESS) then Some (sts, w)
  else
    let w := set_callbacks gap_cb gap_param gatts_cb gatts_param w in
    Some (status (sync w), w).

(** The world in which init starts to wait for the availability event. *)
Definition registering (w : World) : World :=
  emit (Submitted (cfw_register_svc_available (cfw_init_handle env)
                     (BLE_CORE_SERVICE_ID env)))
    (set_sync_response 0
       (set_client_handle (cfw_init_handle env)
          (emit CfwInit (emit PlatformInit w)))).

Lemma init_unfold (fuel : nat) (gap_cb gap_param gatts_cb gatts_param : Z) (w : World) :
  ble_client_init env fuel gap_cb gap_param gatts_cb gatts_param w
  = if nonzero (submit_rc env (trace w ++ [PlatformInit; CfwInit])
                  (cfw_register_svc_available (cfw_init_handle env)
                     (BLE_CORE_SERVICE_ID env)))
    then Some (BLE_STATUS_ERROR, registering w)
    else
      '(sts, w1) ← wait_for_condition env fuel (registering w);
      if bool_decide (sts <> BLE_STATUS_SUCCESS) then Some (sts, w1)
      else init_second_stage fuel gap_cb gap_param gatts_cb gatts_param w1.
Proof.
  unfold ble_client_init, registering, init_second_stage, submit.
  cbn [trace emit set_client_handle set_sync_response set_sync client_handle].
  rewrite <- app_assoc. reflexivity.
Qed.

Lemma registering_frame (w : World) :
  clock_reads (registering w) = clock_reads w
  /\ polls (registering w) = polls w
  /\ response (sync (registering w)) = 0
  /\ client_handle (registering w) = cfw_init_handle env
  /\ submitted (trace (registering w))
     = submitted (trace w) ++ [cfw_register_svc_available (cfw_init_handle env)
                                 (BLE_CORE_SERVICE_ID env)].
Proof.
  repeat split. unfold registering. cbn. rewrite !submitted_app. cbn.
  by rewrite !app_nil_r.
Qed.

(** The second stage, when the open-service response arrives: the delay
    ends after [d] readings below [delay_until], the open-service request
    goes out whatever the substrate answers, and the response ends the
    wait. *)
Lemma init_second_stage_succeeds (d k fuel : nat) (pre : list cfw_message) (h : Z)
    (gap_cb gap_param gatts_cb gatts_param : Z) (w : World) :
  let c := clock_reads w in
  let delay_until := u32 (u32 (uptime env c) + 32) in
  let c2 := (c + d + 2)%nat in
  (forall j, (j < d)%nat -> u32 (uptime env (c + 1 + j)) < delay_until) ->
  delay_until <= u32 (uptime env (c + 1 + d)) ->
  (forall i, (i < k)%nat -> quiet (inbound env (polls w + i))) ->
  inbound env (polls w + k) = pre ++ [MSG_ID_CFW_OPEN_SERVICE h] -> quiet pre ->
  (forall i, (i < k)%nat -> u32 (uptime env (c2 + 1 + i)) <= deadline_at c2) ->
  (d < fuel)%nat -> (k < fuel)%nat ->
  exists w',
    init_second_stage fuel gap_cb gap_param gatts_cb gatts_param w
    = Some (BLE_STATUS_SUCCESS, w')
    /\ service_handle w' = h
    /\ client_handle w' = client_handle w
    /\ ble_client_gap_event_cb w' = gap_cb
    /\ ble_client_gap_event_param w' = gap_param
    /\ ble_client_gatts_event_cb w' = gatts_cb
    /\ ble_client_gatts_event_param w' = gatts_param
    /\ submitted (trace w')
       = submitted (trace w) ++ [cfw_open_service (client_handle w)
                                   (BLE_CORE_SERVICE_ID env)].
Proof.
  intros c delay_until c2 Hbelow Hreach Hq Hin Hpre Hc Hd Hk.
  unfold init_second_stage, get_uptime_32k. fold c. fold delay_until.
  rewrite (delay_loop_ends d fuel delay_until (tick_clock w)); [|..|done].
  2:{ intros j Hj. cbn. fold c. clock_index (c + 1 + j)%nat. by apply Hbelow. }
  2:{ cbn. fold c. clock_index (c + 1 + d)%nat. done. }
  set (wd := reads (S d) (tick_clock w)).
  destruct (reads_frame (S d) (tick_clock w)) as (Hid & Hpd & _ & Htd & _).
  pose proof (reads_counters (S d) (tick_clock w)) as Hcd. fold wd in Hid, Hpd, Htd, Hcd.
  cbn in Hpd, Htd, Hcd.
  assert (Hch : client_handle wd = client_handle w) by (by destruct Hid as (_ & _ & -> & _)).
  cbn -[wait_for_condition wd]. unfold submit.
  cbn -[wait_for_condition wd]. rewrite Hch.
  set (opn := cfw_open_service (client_handle w) (BLE_CORE_SERVICE_ID env)).
  set (w6 := emit (Submitted opn) (set_sync_response 0 wd)).
  destruct (wait_for_condition_completes k fuel w6 pre (MSG_ID_CFW_OPEN_SERVICE h))
    as (wq & Hidle & _ & _ & Hwait); try done.
  { cbn. rewrite Hpd. exact Hq. }
  { cbn. rewrite Hpd. exact Hin. }
  { assert (Hc6 : clock_reads w6 = c2) by (cbn; rewrite Hcd; unfold c2, c; lia).
    rewrite Hc6. exact Hc. }
  rewrite Hwait. cbn.
  rewrite bool_decide_eq_false_2 by (intros Hne; by apply Hne). cbn.
  eexists. split; [reflexivity|]. cbn.
  destruct Hidle as (_ & _ & Hcl & _ & _ & _ & _ & Hsub).
  repeat split; try done.
  - rewrite Hcl. cbn. done.
  - rewrite submitted_app. cbn. rewrite app_nil_r, Hsub. cbn.
    rewrite submitted_app, Htd. done.
Qed.

(** When the availability event for the BLE core service and then the
    open-service response arrive in time, [ble_client_init] returns
    Success: the client handle is the one [cfw_init] gave, the service
    handle is the one the response carries, the four callback variables
    hold the arguments, and the registration and the open-service request
    are the two requests sent, in that order.  The substrate's answer to
    the open-service request plays no part. *)
Theorem init_opens_session_and_stores_callbacks
    (w : World) (k1 d k2 fuel : nat) (pre1 pre2 : list cfw_message) (h : Z)
    (gap_cb gap_param gatts_cb gatts_param : Z) :
  let c := clock_reads w in
  let c1 := (c + 1 + k1)%nat in
  let delay_until := u32 (u32 (uptime env c1) + 32) in
  let c2 := (c1 + d + 2)%nat in
  let p2 := (polls w + k1 + 1)%nat in
  let reg := cfw_register_svc_available (cfw_init_handle env) (BLE_CORE_SERVICE_ID env) in
  let opn := cfw_open_service (cfw_init_handle env) (BLE_CORE_SERVICE_ID env) in
  submit_rc env (trace w ++ [PlatformInit; CfwInit]) reg = BLE_STATUS_SUCCESS ->
  (forall i, (i < k1)%nat -> quiet (inbound env (polls w + i))) ->
  inbound env (polls w + k1)
  = pre1 ++ [MSG_ID_CFW_SVC_AVAIL_EVT (BLE_CORE_SERVICE_ID env)] ->
  quiet pre1 ->
  (forall i, (i < k1)%nat -> u32 (uptime env (c + 1 + i)) <= deadline_at c) ->
  (forall j, (j < d)%nat -> u32 (uptime env (c1 + 1 + j)) < delay_until) ->
  delay_until <= u32 (uptime env (c1 + 1 + d)) ->
  (forall i, (i < k2)%nat -> quiet (inbound env (p2 + i))) ->
  inbound env (p2 + k2) = pre2 ++ [MSG_ID_CFW_OPEN_SERVICE h] -> quiet pre2 ->
  (forall i, (i < k2)%nat -> u32 (uptime env (c2 + 1 + i)) <= deadline_at c2) ->
  (k1 < fuel)%nat -> (d < fuel)%nat -> (k2 < fuel)%nat ->
  exists w',
    ble_client_init env fuel gap_cb gap_param gatts_cb gatts_param w
    = Some (BLE_STATUS_SUCCESS, w')
    /\ client_handle w' = cfw_init_handle env
    /\ service_handle w' = h
    /\ ble_client_gap_event_cb w' = gap_cb
    /\ ble_client_gap_event_param w' = gap_param
    /\ ble_client_gatts_event_cb w' = gatts_cb
    /\ ble_client_gatts_event_param w' = gatts_param
    /\ submitted (trace w') = submitted (trace w) ++ [reg; opn].
Proof.
  intros c c1 delay_until c2 p2 reg opn Hacc Hq1 Hin1 Hpre1 Hc1 Hbelow Hreach
    Hq2 Hin2 Hpre2 Hc2 Hk1 Hd Hk2.
  destruct (registering_frame w) as (Hcr & Hpo & Hr & Hch & Hsub).
  assert (Havail : completes (MSG_ID_CFW_SVC_AVAIL_EVT (BLE_CORE_SERVICE_ID env)) = true)
    by (by apply bool_decide_eq_true).
  destruct (wait_for_condition_completes k1 fuel (registering w) pre1
              (MSG_ID_CFW_SVC_AVAIL_EVT (BLE_CORE_SERVICE_ID env)))
    as (wq & Hidle & Hcq & Hpq & Hwait); try done.
  set (w1 := dispatch (MSG_ID_CFW_SVC_AVAIL_EVT (BLE_CORE_SERVICE_ID env)) wq).
  destruct (dispatch_counters (MSG_ID_CFW_SVC_AVAIL_EVT (BLE_CORE_SERVICE_ID env)) wq)
    as [Hc1' Hp1'].
  destruct (dispatch_frame (MSG_ID_CFW_SVC_AVAIL_EVT (BLE_CORE_SERVICE_ID env)) wq)
    as (Hch1 & _ & _ & _ & _ & _ & _ & Hs1).
  fold w1 in Hc1', Hp1', Hch1, Hs1, Hwait.
  assert (Hclk : clock_reads w1 = c1) by (by rewrite Hc1', Hcq, Hcr).
  assert (Hpol : polls w1 = p2) by (by rewrite Hp1', Hpq, Hpo).
  assert (Hcli : client_handle w1 = cfw_init_handle env).
  { rewrite Hch1. destruct Hidle as (_ & _ & -> & _). done. }
  destruct (init_second_stage_succeeds d k2 fuel pre2 h
              gap_cb gap_param gatts_cb gatts_param w1)
    as (w' & Hrun & Hsv & Hcl & Hg1 & Hg2 & Hg3 & Hg4 & Hsub');
    rewrite ?Hclk, ?Hpol; try done.
  exists w'. rewrite init_unfold. fold reg. rewrite Hacc. cbn [nonzero].
  rewrite Hwait. cbn -[init_second_stage ble_core_client_handle_message].
  rewrite bool_decide_eq_false_2 by (intros Hne; by apply Hne).
  fold w1. repeat split; try done.
  - by rewrite Hcl.
  - rewrite Hsub', Hcli, Hs1. destruct Hidle as (_ & _ & _ & _ & _ & _ & _ & ->).
    rewrite Hsub. by rewrite <- app_assoc.
Qed.

(** A registration the substrate does not accept ends [ble_client_init]
    with GenericError before any wait: the clock and the completion flag
    have not been read, the session is not opened, and the callbacks passed
    in are not stored. *)
Theorem init_fails_when_registration_is_rejected
    (w : World) (fuel : nat) (gap_cb gap_param gatts_cb gatts_param : Z) :
  let reg := cfw_register_svc_available (cfw_init_handle env) (BLE_CORE_SERVICE_ID env) in
  submit_rc env (trace w ++ [PlatformInit; CfwInit]) reg <> BLE_STATUS_SUCCESS ->
  exists w',
    ble_client_init env fuel gap_cb gap_param gatts_cb gatts_param w
    = Some (BLE_STATUS_ERROR, w')
    /\ submitted (trace w') = submitted (trace w) ++ [reg]
    /\ clock_reads w' = clock_reads w /\ polls w' = polls w
    /\ service_handle w' = service_handle w
    /\ ble_client_gap_event_cb w' = ble_client_gap_event_cb w
    /\ ble_client_gap_event_param w' = ble_client_gap_event_param w
    /\ ble_client_gatts_event_cb w' = ble_client_gatts_event_cb w
    /\ ble_client_gatts_event_param w' = ble_client_gatts_event_param w.
Proof.
  intros reg Hrej. exists (registering w). rewrite init_unfold. fold reg.
  apply nonzero_true in Hrej. rewrite Hrej.
  destruct (registering_frame w) as (? & ? & _ & _ & ?). by repeat split.
Qed.

Lemma init_second_stage_times_out (d k fuel : nat)
    (gap_cb gap_param gatts_cb gatts_param : Z) (w : World) :
  let c := clock_reads w in
  let delay_until := u32 (u32 (uptime env c) + 32) in
  let c2 := (c + d + 2)%nat in
  (forall j, (j < d)%nat -> u32 (uptime env (c + 1 + j)) < delay_until) ->
  delay_until <= u32 (uptime env (c + 1 + d)) ->
  (forall i, (i <= k)%nat -> quiet (inbound env (polls w + i))) ->
  (forall i, (i < k)%nat -> u32 (uptime env (c2 + 1 + i)) <= deadline_at c2) ->
  deadline_at c2 < u32 (uptime env (c2 + 1 + k)) ->
  (d < fuel)%nat -> (k < fuel)%nat ->
  exists w',
    init_second_stage fuel gap_cb gap_param gatts_cb gatts_param w
    = Some (BLE_STATUS_TIMEOUT, w')
    /\ service_handle w' = service_handle w
    /\ ble_client_gap_event_cb w' = ble_client_gap_event_cb w
    /\ ble_client_gap_event_param w' = ble_client_gap_event_param w
    /\ ble_client_gatts_event_cb w' = ble_client_gatts_event_cb w
    /\ ble_client_gatts_event_param w' = ble_client_gatts_event_param w
    /\ submitted (trace w')
       = submitted (trace w) ++ [cfw_open_service (client_handle w)
                                   (BLE_CORE_SERVICE_ID env)].
Proof.
  intros c delay_until c2 Hbelow Hreach Hq Hc Hlate Hd Hk.
  unfold init_second_stage, get_uptime_32k. fold c. fold delay_until.
  rewrite (delay_loop_ends d fuel delay_until (tick_clock w)); [|..|done].
  2:{ intros j Hj. cbn. fold c. clock_index (c + 1 + j)%nat. by apply Hbelow. }
  2:{ cbn. fold c. clock_index (c + 1 + d)%nat. done. }
  set (wd := reads (S d) (tick_clock w)).
  destruct (reads_frame (S d) (tick_clock w)) as (Hid & Hpd & _ & Htd & _).
  pose proof (reads_counters (S d) (tick_clock w)) as Hcd. fold wd in Hid, Hpd, Htd, Hcd.
  cbn in Hpd, Htd, Hcd.
  assert (Hch : client_handle wd = client_handle w) by (by destruct Hid as (_ & _ & -> & _)).
  cbn -[wait_for_condition wd]. unfold submit.
  cbn -[wait_for_condition wd]. rewrite Hch.
  set (opn := cfw_open_service (client_handle w) (BLE_CORE_SERVICE_ID env)).
  set (w6 := emit (Submitted opn) (set_sync_response 0 wd)).
  assert (Hc6 : clock_reads w6 = c2) by (cbn; rewrite Hcd; unfold c2, c; lia).
  destruct (wait_for_condition_times_out k fuel w6)
    as (w' & Hwait & Hidle & _ & _); try done.
  { cbn. rewrite Hpd. exact Hq. }
  { unfold deadline. rewrite Hc6. exact Hc. }
  { unfold deadline. rewrite Hc6. exact Hlate. }
  rewrite Hwait. cbn. exists w'. split; [done|].
  destruct Hidle as (_ & Hsv & _ & Hg1 & Hg2 & Hg3 & Hg4 & Hsub).
  destruct Hid as (_ & Hsv' & _ & Hg1' & Hg2' & Hg3' & Hg4' & _).
  cbn in Hsv, Hg1, Hg2, Hg3, Hg4, Hsub, Hsv', Hg1', Hg2', Hg3', Hg4'.
  repeat split; try congruence.
  rewrite Hsub, submitted_app, Htd. done.
Qed.

(** When the availability event arrives but the open-service response
    does not, [ble_client_init] returns Timeout with both requests sent:
    the callbacks passed in are not stored and the service handle is the
    old one. *)
Theorem init_times_out_waiting_for_open_service
    (w : World) (k1 d k2 fuel : nat) (pre1 : list cfw_message)
    (gap_cb gap_param gatts_cb gatts_param : Z) :
  let c := clock_reads w in
  let c1 := (c + 1 + k1)%nat in
  let delay_until := u32 (u32 (uptime env c1) + 32) in
  let c2 := (c1 + d + 2)%nat in
  let p2 := (polls w + k1 + 1)%nat in
  let reg := cfw_register_svc_available (cfw_init_handle env) (BLE_CORE_SERVICE_ID env) in
  let opn := cfw_open_service (cfw_init_handle env) (BLE_CORE_SERVICE_ID env) in
  submit_rc env (trace w ++ [PlatformInit; CfwInit]) reg = BLE_STATUS_SUCCESS ->
  (forall i, (i < k1)%nat -> quiet (inbound env (polls w + i))) ->
  inbound env (polls w + k1)
  = pre1 ++ [MSG_ID_CFW_SVC_AVAIL_EVT (BLE_CORE_SERVICE_ID env)] ->
  quiet pre1 ->
  (forall i, (i < k1)%nat -> u32 (uptime env (c + 1 + i)) <= deadline_at c) ->
  (forall j, (j < d)%nat -> u32 (uptime env (c1 + 1 + j)) < delay_until) ->
  delay_until <= u32 (uptime env (c1 + 1 + d)) ->
  (forall i, (i <= k2)%nat -> quiet (inbound env (p2 + i))) ->
  (forall i, (i < k2)%nat -> u32 (uptime env (c2 + 1 + i)) <= deadline_at c2) ->
  deadline_at c2 < u32 (uptime env (c2 + 1 + k2)) ->
  (k1 < fuel)%nat -> (d < fuel)%nat -> (k2 < fuel)%nat ->
  exists w',
    ble_client_init env fuel gap_cb gap_param gatts_cb gatts_param w
    = Some (BLE_STATUS_TIMEOUT, w')
    /\ service_handle w' = service_handle w
    /\ ble_client_gap_event_cb w' = ble_client_gap_event_cb w
    /\ ble_client_gap_event_param w' = ble_client_gap_event_param w
    /\ ble_client_gatts_event_cb w' = ble_client_gatts_event_cb w
    /\ ble_client_gatts_event_param w' = ble_client_gatts_event_param w
    /\ submitted (trace w') = submitted (trace w) ++ [reg; opn].
Proof.
  intros c c1 delay_until c2 p2 reg opn Hacc Hq1 Hin1 Hpre1 Hc1 Hbelow Hreach
    Hq2 Hc2 Hlate Hk1 Hd Hk2.
  destruct (registering_frame w) as (Hcr & Hpo & Hr & Hch & Hsub).
  assert (Havail : completes (MSG_ID_CFW_SVC_AVAIL_EVT (BLE_CORE_SERVICE_ID env)) = true)
    by (by apply bool_decide_eq_true).
  destruct (wait_for_condition_completes k1 fuel (registering w) pre1
              (MSG_ID_CFW_SVC_AVAIL_EVT (BLE_CORE_SERVICE_ID env)))
    as (wq & Hidle & Hcq & Hpq & Hwait); try done.
  set (w1 := dispatch (MSG_ID_CFW_SVC_AVAIL_EVT (BLE_CORE_SERVICE_ID env)) wq).
  destruct (dispatch_counters (MSG_ID_CFW_SVC_AVAIL_EVT (BLE_CORE_SERVICE_ID env)) wq)
    as [Hc1' Hp1'].
  destruct (dispatch_frame (MSG_ID_CFW_SVC_AVAIL_EVT (BLE_CORE_SERVICE_ID env)) wq)
    as (Hch1 & Hf1 & Hf2 & Hf3 & Hf4 & _ & _ & Hs1).
  pose proof (dispatch_service_handle
                (MSG_ID_CFW_SVC_AVAIL_EVT (BLE_CORE_SERVICE_ID env)) wq) as Hsv1.
  cbn [service_handle_after] in Hsv1.
  fold w1 in Hc1', Hp1', Hch1, Hs1, Hwait, Hf1, Hf2, Hf3, Hf4, Hsv1.
  assert (Hclk : clock_reads w1 = c1) by (by rewrite Hc1', Hcq, Hcr).
  assert (Hpol : polls w1 = p2) by (by rewrite Hp1', Hpq, Hpo).
  destruct Hidle as (_ & Hi2 & Hi3 & Hi4 & Hi5 & Hi6 & Hi7 & Hi8).
  assert (Hcli : client_handle w1 = cfw_init_handle env) by congruence.
  destruct (init_second_stage_times_out d k2 fuel
              gap_cb gap_param gatts_cb gatts_param w1)
    as (w' & Hrun & Hsv & Hg1 & Hg2 & Hg3 & Hg4 & Hsub');
    rewrite ?Hclk, ?Hpol; try done.
  exists w'. rewrite init_unfold. fold reg. rewrite Hacc. cbn [nonzero].
  rewrite Hwait. cbn -[init_second_stage ble_core_client_handle_message].
  rewrite bool_decide_eq_false_2 by (intros Hne; by apply Hne).
  fold w1. cbn in Hi2, Hi4, Hi5, Hi6, Hi7.
  repeat split; try congruence.
  rewrite Hsub', Hcli, Hs1, Hi8, Hsub. by rewrite <- app_assoc.
Qed.

(** ** The deadline in the last second before the counter wraps *)

(** A blocking operation entered in the last 32768 ticks before the
    counter wraps returns Timeout at its very first look at the clock,
    provided the counter has not wrapped by then and nothing completed the
    slot before: the wrapped deadline lies below every such reading. *)
Theorem blocking_call_times_out_at_once_before_wrap
    (op : blocking_operation) (fuel : nat) (w : World) :
  let t0 := u32 (uptime env (clock_reads w)) in
  gate_open op w ->
  submit_rc env (trace w) (first_request op w) = BLE_STATUS_SUCCESS ->
  quiet (inbound env (polls w)) ->
  2 ^ 32 - 32768 <= t0 ->
  t0 <= u32 (uptime env (clock_reads w + 1)) ->
  (0 < fuel)%nat ->
  exists w',
    perform op fuel w = Some (BLE_STATUS_TIMEOUT, w')
    /\ clock_reads w' = (clock_reads w + 2)%nat
    /\ polls w' = (polls w + 1)%nat.
Proof.
  intros t0 Hgate Hrc Hq Hlast Hnext Hfuel.
  assert (Hdl : deadline_at (clock_reads w) = t0 + 32768 - 2 ^ 32).
  { unfold deadline_at. fold t0. unfold u32 at 1.
    pose proof (u32_range (uptime env (clock_reads w))) as Hr. fold t0 in Hr.
    symmetry. apply (Z.mod_unique _ _ 1); lia. }
  destruct (perform_times_out op 0 fuel w) as (w' & Hrun & _ & _ & Hcr & Hpo);
    try done.
  - intros i Hi. replace i with 0%nat by lia. by rewrite Nat.add_0_r.
  - intros i Hi. lia.
  - rewrite Hdl. clock_index (clock_reads w + 1)%nat. lia.
  - exists w'. repeat split; [done| |]; [rewrite Hcr | rewrite Hpo]; lia.
Qed.

(** ** A response that comes too late *)

(** The out-parameter operation as one of the blocking operations. *)
Definition as_blocking (op : out_operation) (dest : Z) : blocking_operation :=
  match op with
  | ReadAddress => OpGetBda dest
  | AddService uuid type => OpAddService uuid type dest
  | AddCharacteristic svc_handle char_data => OpAddCharacteristic svc_handle char_data dest
  | AddDescriptor svc_handle desc => OpAddDescriptor svc_handle desc dest
  end.

(** After an out-parameter operation has returned Timeout, the slot still
    holds the caller's destination: the operation's Success response,
    should it arrive afterwards, is written there all the same. *)
Theorem late_response_writes_abandoned_destination
    (op : out_operation) (dest : Z) (k fuel : nat) (w : World) :
  dest <> NULL ->
  submit_rc env (trace w) (request_for op w) = BLE_STATUS_SUCCESS ->
  (forall i, (i <= k)%nat -> quiet (inbound env (polls w + i))) ->
  (forall i, (i < k)%nat ->
     u32 (uptime env (clock_reads w + 1 + i)) <= deadline_at (clock_reads w)) ->
  deadline_at (clock_reads w) < u32 (uptime env (clock_reads w + 1 + k)) ->
  (k < fuel)%nat ->
  exists w',
    run op fuel dest w = Some (BLE_STATUS_TIMEOUT, w')
    /\ forall payload rsp,
         success_response op payload = Some rsp ->
         mem (dispatch rsp w') = <[dest := payload]> (mem w').
Proof.
  intros Hdest Hrc Hq Hc Hlate Hfuel.
  destruct (perform_times_out (as_blocking op dest) k fuel w)
    as (w' & Hrun & _ & Hsync & _); try done; try (by destruct op).
  exists w'. split; [by destruct op|].
  assert (Hparam : param (sync w') = dest) by (rewrite Hsync; by destruct op).
  apply Z.eqb_neq in Hdest.
  intros payload rsp Hrsp.
  destruct op, payload; try discriminate Hrsp; injection Hrsp as <-.
  all: unfold_handlers; cbn; rewrite Hparam, Hdest; cbn.
  all: by rewrite (bool_decide_eq_true_2 _ (eq_refl BLE_STATUS_SUCCESS)).
Qed.

(** ** What the dispatcher changes, message by message *)

(** In handling a message that leads to no subscriber call (a response,
    an unknown kind, or an event while no subscriber is registered for its
    category) the dispatcher leaves the client handle and the four
    callback variables alone, hands no request to the substrate, and reads
    neither the clock nor the completion flag; the service handle changes
    only on an open-service response. *)
Theorem dispatcher_keeps_registry_and_submits_nothing (msg : cfw_message) (w : World) :
  let w' := dispatch msg w in
  calls_for msg w = [] ->
  client_handle w' = client_handle w
  /\ ble_client_gap_event_cb w' = ble_client_gap_event_cb w
  /\ ble_client_gap_event_param w' = ble_client_gap_event_param w
  /\ ble_client_gatts_event_cb w' = ble_client_gatts_event_cb w
  /\ ble_client_gatts_event_param w' = ble_client_gatts_event_param w
  /\ clock_reads w' = clock_reads w
  /\ polls w' = polls w
  /\ trace w' = trace w ++ [MsgFree msg]
  /\ service_handle w' = service_handle_after msg w.
Proof.
  cbn zeta. intros Hcalls. pose proof (dispatch_frame msg w) as Hf. cbn zeta in Hf.
  pose proof (dispatch_service_handle msg w).
  pose proof (dispatch_trace msg w) as Ht. rewrite Hcalls in Ht. intuition.
Qed.

(** A message completes the slot exactly when it is a response the file
    waits for, an open-service response, or an availability event that
    names the BLE core service.  It then sets the flag, leaves its status
    (Success where it carries none) and keeps the destination; any other
    message, an availability event for another service included, leaves
    the slot as it was. *)
Theorem slot_completed_only_by_awaited_kinds (msg : cfw_message) (w : World) :
  (completes msg = true ->
     sync (dispatch msg w)
     = {| response := 1; status := carried_status msg; param := param (sync w) |})
  /\ (completes msg = false -> sync (dispatch msg w) = sync w).
Proof.
  split; intros Hq.
  - destruct (dispatch_completes msg w Hq) as (Hr & Hs & Hp).
    destruct (sync (dispatch msg w)). cbn in *. by subst.
  - by apply dispatch_quiet.
Qed.

(** The type tag of an object in caller memory. *)
Definition same_type (o v : object) : bool :=
  match o, v with
  | ObjAddr _, ObjAddr _ | ObjU16 _, ObjU16 _ | ObjCharHandles _, ObjCharHandles _ => true
  | _, _ => false
  end.

(** What a response writes through [sync.param], when it writes. *)
Definition written (msg : cfw_message) : option object :=
  match msg with
  | MSG_ID_BLE_GAP_RD_BDA_RSP BLE_STATUS_SUCCESS bd => Some (ObjAddr bd)
  | MSG_ID_BLE_GATTS_ADD_SERVICE_RSP BLE_STATUS_SUCCESS h => Some (ObjU16 h)
  | MSG_ID_BLE_GATTS_ADD_CHARACTERISTIC_RSP BLE_STATUS_SUCCESS ch => Some (ObjCharHandles ch)
  | MSG_ID_BLE_GATTS_ADD_DESCRIPTOR_RSP BLE_STATUS_SUCCESS h => Some (ObjU16 h)
  | _ => None
  end.

(** The destination in the slot suits the message: it is null, or the
    message writes nothing, or the object there has the type the message
    writes. *)
Definition destination_fits (msg : cfw_message) (w : World) : Prop :=
  param (sync w) = NULL
  \/ match written msg with
     | Some v => exists o, mem w !! param (sync w) = Some o /\ same_type o v = true
     | None => True
     end.

(** A message that leads to no subscriber call, handled while the
    destination in the slot suits it, changes caller memory at most at that
    destination, where the object keeps its type, and not at all when the
    destination is null. *)
Theorem responses_write_only_at_destination (msg : cfw_message) (w : World) :
  calls_for msg w = [] ->
  destination_fits msg w ->
  (forall a, a <> param (sync w) -> mem (dispatch msg w) !! a = mem w !! a)
  /\ (forall o, mem w !! param (sync w) = Some o -> param (sync w) <> NULL ->
      exists o', mem (dispatch msg w) !! param (sync w) = Some o' /\ same_type o o' = true)
  /\ (param (sync w) = NULL -> mem (dispatch msg w) = mem w).
Proof.
  intros Hcalls Hfit. split; [|split].
  - intros a Ha. revert Hcalls.
    destruct msg; unfold calls_for, timeout_calls, gap_call, gatts_call;
      unfold_handlers; cbn; handler_cases; try done; intros _;
      by rewrite lookup_insert_ne.
  - intros o Ho Hnn. destruct Hfit as [Hnull|Hfit]; [done|].
    assert (Hsame : same_type o o = true) by (by destruct o).
    apply Z.eqb_neq in Hnn. revert Hcalls Hfit.
    destruct msg; unfold calls_for, timeout_calls, gap_call, gatts_call, written;
      unfold_handlers; cbn; rewrite ?Hnn; cbn;
      try match goal with st : BleStatus |- _ => destruct st end; cbn;
      rewrite ?(bool_decide_eq_true_2 _ (eq_refl BLE_STATUS_SUCCESS));
      try (rewrite bool_decide_eq_false_2 by discriminate);
      cbn; handler_cases; try done;
      try (intros _ _; exists o; by split).
    all: intros _ (o0 & Ho0 & Hty); rewrite Ho in Ho0; injection Ho0 as <-.
    all: eexists; split; [apply lookup_insert_eq | done].
  - intros Hnull. revert Hcalls.
    destruct msg; unfold calls_for, timeout_calls, gap_call, gatts_call;
      unfold_handlers; cbn; rewrite ?Hnull; cbn; handler_cases; done.
Qed.

(** A completion flag left set before the call, by a response that came
    after its own call had given up, does not complete the next call:
    every blocking operation that gets past the gate, and initialisation,
    clears the flag before it submits, and behaves as if the flag had been
    clear. *)
Theorem stale_flag_is_cleared_before_submitting
    (op : blocking_operation) (fuel : nat) (v : Z) (w : World)
    (gap_cb gap_param gatts_cb gatts_param : Z) :
  gate_open op w ->
  perform op fuel (set_sync_response v w) = perform op fuel w
  /\ ble_client_init env fuel gap_cb gap_param gatts_cb gatts_param (set_sync_response v w)
     = ble_client_init env fuel gap_cb gap_param gatts_cb gatts_param w.
Proof.
  unfold gate_open. intros Hgate. split; [|reflexivity].
  destruct op; try reflexivity; cbn in Hgate; unfold_operations;
    cbn -[wait_and_harvest]; rewrite (Hgate eq_refl); reflexivity.
Qed.

(** ** The timeout in ticks *)

(** Take the environment's [uptime] for the tick count itself and suppose
    the counter does not wrap between the start of the wait and the
    reading in question, so that every reading in between is that count.
    Then a blocking operation whose request was accepted, and whose slot
    nothing completes, returns Timeout exactly on the first reading more
    than 32768 ticks after the start: the time elapsed at the return is
    above 32768 ticks, by no more than the interval between the last two
    readings. *)
Theorem blocking_call_timeout_in_ticks
    (op : blocking_operation) (k fuel : nat) (w : World) :
  let c := clock_reads w in
  let t0 := uptime env c in
  gate_open op w ->
  submit_rc env (trace w) (first_request op w) = BLE_STATUS_SUCCESS ->
  (forall i, (i <= k)%nat -> quiet (inbound env (polls w + i))) ->
  (forall j, (c <= j <= c + 1 + k)%nat -> 0 <= uptime env j < 2 ^ 32) ->
  (forall i, (i < k)%nat -> uptime env (c + 1 + i) <= t0 + 32768) ->
  t0 + 32768 < uptime env (c + 1 + k) ->
  (k < fuel)%nat ->
  exists w',
    perform op fuel w = Some (BLE_STATUS_TIMEOUT, w')
    /\ clock_reads w' = (c + k + 2)%nat
    /\ let last := uptime env (clock_reads w' - 1) in
       let previous := uptime env (clock_reads w' - 2) in
       32768 < last - t0 <= 32768 + (last - previous).
Proof.
  intros c t0 Hgate Hrc Hq Hrange Hearly Hlate Hfuel.
  assert (Hu : forall j, (c <= j <= c + 1 + k)%nat -> u32 (uptime env j) = uptime env j).
  { intros j Hj. apply u32_small. by apply Hrange. }
  assert (Hdl : deadline_at c = t0 + 32768).
  { unfold deadline_at. rewrite (Hu c) by lia. fold t0. apply u32_small.
    pose proof (Hrange c ltac:(lia)). pose proof (Hrange (c + 1 + k)%nat ltac:(lia)).
    fold t0 in H. lia. }
  destruct (perform_times_out op k fuel w) as (w' & Hrun & _ & _ & Hcr & _); try done.
  - intros i Hi. fold c. rewrite Hdl, Hu by lia. by apply Hearly.
  - fold c. rewrite Hdl, Hu by lia. done.
  - exists w'. split; [done|]. split; [done|]. rewrite Hcr. fold c. cbn zeta.
    replace (c + k + 2 - 1)%nat with (c + 1 + k)%nat by lia.
    replace (c + k + 2 - 2)%nat with (c + k)%nat by lia.
    split; [lia|].
    destruct k as [|k].
    + rewrite !Nat.add_0_r. fold t0. lia.
    + specialize (Hearly k ltac:(lia)).
      replace (c + S k)%nat with (c + 1 + k)%nat by lia. lia.
Qed.

End Properties.

(** ** The deadline near the limit of the counter *)

(** C3 fails on the code where the counter is about to wrap.  Entered at
    reading [2^32 - 6], [wait_for_condition] computes the deadline
    [(2^32 - 6 + 32768) mod 2^32 = 32762]; the next reading, one tick
    later, is already beyond it, and a blocking operation returns Timeout
    after one tick instead of 32768.  Entered at reading [2^32 - 32769],
    the deadline is [2^32 - 1], which no reading exceeds: without a
    response the operation never returns, whatever the fuel. *)
Theorem deadline_wraps_near_counter_limit :
  (exists w',
      ble_client_gap_wr_adv_data near_limit 1 0 0 (boot ∅)
      = Some (BLE_STATUS_TIMEOUT, w')
      /\ clock_reads w' = 2%nat
      /\ u32 (uptime near_limit 1) - u32 (uptime near_limit 0) = 1)
  /\ (forall fuel : nat, ble_client_gap_wr_adv_data at_limit fuel 0 0 (boot ∅) = None).
Proof.
  split.
  - eexists. split; [vm_compute; reflexivity|]. split; reflexivity.
  - intros fuel. unfold ble_client_gap_wr_adv_data, submit.
    cbn -[wait_and_harvest]. unfold wait_and_harvest.
    rewrite wait_for_condition_unfold.
    match goal with
    | |- context [wait_loop _ _ (deadline _ ?w0) _] =>
        assert (Hd : deadline at_limit w0 = 2 ^ 32 - 1) by (vm_compute; reflexivity)
    end.
    rewrite Hd, wait_loop_hangs_at_limit; [done | intros n; reflexivity | reflexivity].
Qed.

(** The handler writes the flag before it looks at the reason: an
    advertising timeout that found the session connected would clear it. *)
Lemma adv_timeout_changes_connected :
  let w := set_connected true (boot ∅) in
  let evt := {| evt_conn_handle := 7; evt_timeout_reason := BLE_SVC_GAP_TO_ADV;
                evt_raw := [] |} in
  connected w = true
  /\ connected (ble_core_client_handle_message (bench (stepping 0 1) silence)
                  (MSG_ID_BLE_GAP_TO_EVT evt) w) = false.
Proof. split; reflexivity. Qed.

(** C8, as stated, fails.  No availability event arrives, yet
    initialisation does not return Timeout: a response that belongs to
    another request completes the slot during the first wait, the
    open-service request goes out, and init returns Success with the
    session opened and the callbacks stored. *)
Lemma init_completed_by_foreign_response :
  (forall (n : nat) (id : Z),
      MSG_ID_CFW_SVC_AVAIL_EVT id ∉ inbound foreign_completion n)
  /\ exists w',
       ble_client_init foreign_completion 5 1 2 3 4 (boot ∅)
       = Some (BLE_STATUS_SUCCESS, w')
       /\ submitted (trace w') = [cfw_register_svc_available 1 3; cfw_open_service 1 3]
       /\ service_handle w' = 77
       /\ ble_client_gap_event_cb w' = 1 /\ ble_client_gatts_event_cb w' = 3.
Proof.
  split.
  - intros n id. cbn. destruct (Nat.eqb n 1); [|destruct (Nat.eqb n 3)];
      intros Hin; repeat (apply elem_of_cons in Hin as [Hin|Hin]; [discriminate|]);
      by apply elem_of_nil in Hin.
  - eexists. split; [vm_compute; reflexivity|]. by vm_compute.
Qed.

(** ** The statements at concrete inputs *)

Lemma timeout_event_by_reason_witness :
  let adv := {| evt_conn_handle := 7; evt_timeout_reason := BLE_SVC_GAP_TO_ADV;
                evt_raw := [] |} in
  let conn := {| evt_conn_handle := 7; evt_timeout_reason := BLE_SVC_GAP_TO_CONN;
                 evt_raw := [] |} in
  let w := set_callbacks 1 200 0 0 (boot ∅) in
  connected (ble_core_client_handle_message unanswered (MSG_ID_BLE_GAP_TO_EVT adv) w)
  = connected w
  /\ connected (ble_core_client_handle_message unanswered (MSG_ID_BLE_GAP_TO_EVT conn)
                  (set_connected true w)) = false.
Proof.
  intros adv conn w. split.
  - apply (proj1 (timeout_event_by_reason unanswered adv w eq_refl) eq_refl).
  - apply (proj2 (timeout_event_by_reason unanswered conn w eq_refl)
             (set_connected true w) eq_refl).
Defined.

Lemma out_param_delivered_on_success_witness :
  exists w',
    run char_added (AddCharacteristic 1 2) 5 100 (boot ∅)
    = Some (BLE_STATUS_SUCCESS, w')
    /\ mem w' !! 100 = Some (ObjCharHandles handles_10_11).
Proof.
  apply (out_param_delivered_on_success char_added (AddCharacteristic 1 2)
           (ObjCharHandles handles_10_11)
           (MSG_ID_BLE_GATTS_ADD_CHARACTERISTIC_RSP BLE_STATUS_SUCCESS handles_10_11)
           100 (boot ∅) 2 5 []).
  - reflexivity.
  - discriminate.
  - reflexivity.
  - intros i Hi. destruct i as [|[|i]]; [constructor | constructor | lia].
  - reflexivity.
  - constructor.
  - intros i Hi. destruct i as [|[|i]]; [by vm_compute | by vm_compute | lia].
  - lia.
Defined.

Lemma gated_operations_reject_when_disconnected_witness :
  ble_client_gatts_send_notif_ind unanswered 5 1 2 3 4 true (boot ∅)
  = Some (BLE_STATUS_WRONG_STATE, boot ∅)
  /\ ble_client_gap_disconnect unanswered 5 19 (boot ∅)
     = Some (BLE_STATUS_WRONG_STATE, boot ∅)
  /\ ble_client_gap_set_rssi_report unanswered 5 true (boot ∅)
     = Some (BLE_STATUS_WRONG_STATE, boot ∅).
Proof.
  apply (gated_operations_reject_when_disconnected unanswered (boot ∅)).
  reflexivity.
Defined.

Lemma out_param_written_iff_success_witness :
  let w := set_sync_param 100 (boot ∅) in
  mem (ble_core_client_handle_message unanswered
         (MSG_ID_BLE_GATTS_ADD_SERVICE_RSP (BLE_STATUS_REMOTE 5) 12) w) = mem w
  /\ mem (ble_core_client_handle_message unanswered
            (MSG_ID_BLE_GATTS_ADD_SERVICE_RSP BLE_STATUS_SUCCESS 12) w)
     = <[100 := ObjU16 12]> (mem w).
Proof.
  intros w. split.
  - apply (proj1 (out_param_written_iff_success unanswered (BLE_STATUS_REMOTE 5) w
                    {| addr_type := 0; addr := [] |} 12 handles_10_11 13)).
    discriminate.
  - apply (proj2 (out_param_written_iff_success unanswered BLE_STATUS_SUCCESS w
                    {| addr_type := 0; addr := [] |} 12 handles_10_11 13));
      [reflexivity | discriminate].
Defined.

Lemma init_times_out_without_opening_session_witness :
  exists w',
    ble_client_init unanswered 5 1 2 3 4 (boot ∅) = Some (BLE_STATUS_TIMEOUT, w')
    /\ submitted (trace w') = [cfw_register_svc_available 1 3]
    /\ ble_client_gap_event_cb w' = NULL
    /\ clock_reads w' = 3%nat.
Proof.
  destruct (init_times_out_without_opening_session unanswered (boot ∅) 1 5 1 2 3 4)
    as (w' & Hrun & Hsub & _ & Hcb & _ & _ & _ & Hcr & _).
  - reflexivity.
  - intros i Hi. constructor.
  - intros i Hi. destruct i as [|i]; [by vm_compute | lia].
  - by vm_compute.
  - lia.
  - exists w'. auto.
Defined.

(** ** Runs of the model *)

(** The subscriber of [bench] records the connection state it is called
    in: after a connect event it has seen the session connected, after a
    disconnect event it has seen it disconnected. *)
Example subscriber_sees_updated_session :
  let evt := {| evt_conn_handle := 7; evt_timeout_reason := TO_OTHER 0; evt_raw := [] |} in
  let w := set_callbacks 1 200 0 0 (boot ∅) in
  let up := ble_core_client_handle_message unanswered (MSG_ID_BLE_GAP_CONNECT_EVT evt) w in
  let down :=
    ble_core_client_handle_message unanswered (MSG_ID_BLE_GAP_DISCONNECT_EVT evt) up in
  mem up !! 200 = Some (ObjU16 1) /\ conn_handle up = 7
  /\ mem down !! 200 = Some (ObjU16 0).
Proof. by vm_compute. Qed.

(** The add-characteristic scenario, run: the caller's handle set is
    [{0x10, 0x11}] and the call returns Success after two idle turns. *)
Example add_characteristic_scenario :
  exists w',
    ble_client_gatts_add_characteristic char_added 5 1 2 100 (boot ∅)
    = Some (BLE_STATUS_SUCCESS, w')
    /\ mem w' !! 100 = Some (ObjCharHandles {| value_handle := 16; cccd_handle := 17 |})
    /\ clock_reads w' = 3%nat.
Proof. eexists. split; [vm_compute; reflexivity|]. by vm_compute. Qed.

(** Initialisation runs to the end when the availability event and the
    open-service response arrive: the service handle and the callbacks are
    stored, and the two requests went out in order. *)
Example init_succeeds :
  let inbox n :=
    if Nat.eqb n 1 then [MSG_ID_CFW_SVC_AVAIL_EVT 3]
    else if Nat.eqb n 3 then [MSG_ID_CFW_OPEN_SERVICE 77] else [] in
  exists w',
    ble_client_init (bench (stepping 0 10) inbox) 5 1 2 3 4 (boot ∅)
    = Some (BLE_STATUS_SUCCESS, w')
    /\ submitted (trace w') = [cfw_register_svc_available 1 3; cfw_open_service 1 3]
    /\ service_handle w' = 77
    /\ ble_client_gap_event_cb w' = 1 /\ ble_client_gatts_event_cb w' = 3.
Proof. eexists. split; [vm_compute; reflexivity|]. by vm_compute. Qed.

(** The connection parameters of [ble_client_gap_set_enable_config]. *)
Example connection_parameters :
  MIN_CONN_INTERVAL = 64 /\ MAX_CONN_INTERVAL = 120 /\ CONN_SUP_TIMEOUT = 600.
Proof. by vm_compute. Qed.

(** ** The further statements at concrete inputs *)

Lemma rejected_submission_returns_error_at_once_witness :
  exists w',
    perform refusing (OpGetBda 100) 3 (boot ∅) = Some (BLE_STATUS_ERROR, w')
    /\ clock_reads w' = 0%nat.
Proof.
  destruct (rejected_submission_returns_error_at_once refusing (OpGetBda 100) 3 (boot ∅))
    as (w' & Hrun & _ & _ & Hcr & _).
  - intros Hgate. discriminate Hgate.
  - discriminate.
  - exists w'. auto.
Defined.

Lemma blocking_call_times_out_witness :
  exists w',
    perform unanswered (OpIncludeService 1 2) 5 (boot ∅)
    = Some (BLE_STATUS_TIMEOUT, w')
    /\ clock_reads w' = 3%nat.
Proof.
  destruct (blocking_call_times_out unanswered (OpIncludeService 1 2) 1 5 (boot ∅))
    as (w' & Hrun & _ & _ & Hcr & _).
  - intros Hgate. discriminate Hgate.
  - reflexivity.
  - intros i Hi. constructor.
  - intros i Hi. destruct i as [|i]; [by vm_compute | lia].
  - by vm_compute.
  - lia.
  - exists w'. auto.
Defined.

Lemma blocking_call_returns_last_completion_of_batch_witness :
  exists w',
    perform two_at_once (OpWrAdvData 0 0) 5 (boot ∅) = Some (BLE_STATUS_SUCCESS, w').
Proof.
  destruct (blocking_call_returns_last_completion_of_batch two_at_once (OpWrAdvData 0 0)
              (MSG_ID_BLE_GAP_WR_ADV_DATA_RSP BLE_STATUS_SUCCESS)
              [MSG_ID_BLE_GAP_WR_CONF_RSP (BLE_STATUS_REMOTE 9);
               MSG_ID_BLE_GAP_WR_ADV_DATA_RSP BLE_STATUS_SUCCESS] 1 5 (boot ∅))
    as (w' & Hrun & _).
  - reflexivity.
  - intros Hgate. discriminate Hgate.
  - reflexivity.
  - intros i Hi. destruct i as [|i]; [constructor | lia].
  - reflexivity.
  - reflexivity.
  - intros i Hi. destruct i as [|i]; [by vm_compute | lia].
  - lia.
  - exists w'. exact Hrun.
Defined.

Lemma enable_config_stops_at_first_failure_witness :
  exists w',
    ble_client_gap_set_enable_config conf_fails 5 10 20 30 (boot ∅)
    = Some (BLE_STATUS_REMOTE 9, w')
    /\ length (submitted (trace w')) = 1%nat.
Proof.
  destruct (enable_config_stops_at_first_failure conf_fails 10 20 30
              (MSG_ID_BLE_GAP_WR_CONF_RSP (BLE_STATUS_REMOTE 9)) [] 1 5 (boot ∅))
    as (w' & Hrun & Hsub).
  - reflexivity.
  - intros i Hi. destruct i as [|i]; [constructor | lia].
  - reflexivity.
  - constructor.
  - reflexivity.
  - discriminate.
  - intros i Hi. destruct i as [|i]; [by vm_compute | lia].
  - lia.
  - exists w'. split; [exact Hrun | by rewrite Hsub].
Defined.

Lemma enable_config_runs_both_stages_witness :
  exists w',
    ble_client_gap_set_enable_config conf_then_sm 5 10 20 30 (boot ∅)
    = Some (BLE_STATUS_REMOTE 4, w')
    /\ length (submitted (trace w')) = 2%nat.
Proof.
  destruct (enable_config_runs_both_stages conf_then_sm 10 20 30
              (MSG_ID_BLE_GAP_WR_CONF_RSP BLE_STATUS_SUCCESS)
              (MSG_ID_BLE_GAP_SM_CONFIG_RSP (BLE_STATUS_REMOTE 4)) [] [] 1 1 5 (boot ∅))
    as (w' & Hrun & Hsub).
  - reflexivity.
  - intros i Hi. destruct i as [|i]; [constructor | lia].
  - reflexivity.
  - constructor.
  - reflexivity.
  - reflexivity.
  - intros i Hi. destruct i as [|i]; [by vm_compute | lia].
  - reflexivity.
  - intros i Hi. destruct i as [|i]; [constructor | lia].
  - reflexivity.
  - constructor.
  - reflexivity.
  - intros i Hi. destruct i as [|i]; [by vm_compute | lia].
  - lia.
  - lia.
  - exists w'. split; [exact Hrun | by rewrite Hsub].
Defined.

Lemma init_opens_session_and_stores_callbacks_witness :
  exists w',
    ble_client_init service_opens 5 1 2 3 4 (boot ∅) = Some (BLE_STATUS_SUCCESS, w')
    /\ service_handle w' = 77
    /\ ble_client_gap_event_cb w' = 1.
Proof.
  destruct (init_opens_session_and_stores_callbacks service_opens (boot ∅) 1 3 1 5
              [] [] 77 1 2 3 4)
    as (w' & Hrun & _ & Hsvc & Hcb & _).
  - reflexivity.
  - intros i Hi. destruct i as [|i]; [constructor | lia].
  - reflexivity.
  - constructor.
  - intros i Hi. destruct i as [|i]; [by vm_compute | lia].
  - intros j Hj. destruct j as [|[|[|j]]]; [by vm_compute | by vm_compute | by vm_compute | lia].
  - by vm_compute.
  - intros i Hi. destruct i as [|i]; [constructor | lia].
  - reflexivity.
  - constructor.
  - intros i Hi. destruct i as [|i]; [by vm_compute | lia].
  - lia.
  - lia.
  - lia.
  - exists w'. auto.
Defined.

Lemma init_fails_when_registration_is_rejected_witness :
  exists w',
    ble_client_init refusing 5 1 2 3 4 (boot ∅) = Some (BLE_STATUS_ERROR, w')
    /\ ble_client_gap_event_cb w' = NULL.
Proof.
  destruct (init_fails_when_registration_is_rejected refusing (boot ∅) 5 1 2 3 4)
    as (w' & Hrun & _ & _ & _ & _ & Hcb & _).
  - discriminate.
  - exists w'. auto.
Defined.

Lemma init_times_out_waiting_for_open_service_witness :
  exists w',
    ble_client_init service_silent 5 1 2 3 4 (boot ∅) = Some (BLE_STATUS_TIMEOUT, w')
    /\ ble_client_gap_event_cb w' = NULL
    /\ length (submitted (trace w')) = 2%nat.
Proof.
  destruct (init_times_out_waiting_for_open_service service_silent (boot ∅) 1 3 0 5
              [] 1 2 3 4)
    as (w' & Hrun & _ & Hcb & _ & _ & _ & Hsub).
  - reflexivity.
  - intros i Hi. destruct i as [|i]; [constructor | lia].
  - reflexivity.
  - constructor.
  - intros i Hi. destruct i as [|i]; [by vm_compute | lia].
  - intros j Hj. destruct j as [|[|[|j]]]; [by vm_compute | by vm_compute | by vm_compute | lia].
  - by vm_compute.
  - intros i Hi. destruct i as [|i]; [constructor | lia].
  - intros i Hi. lia.
  - by vm_compute.
  - lia.
  - lia.
  - lia.
  - exists w'. split; [exact Hrun|]. split; [exact Hcb | by rewrite Hsub].
Defined.

Lemma blocking_call_times_out_at_once_before_wrap_witness :
  exists w',
    perform near_limit (OpWrAdvData 0 0) 1 (boot ∅) = Some (BLE_STATUS_TIMEOUT, w')
    /\ clock_reads w' = 2%nat.
Proof.
  destruct (blocking_call_times_out_at_once_before_wrap near_limit (OpWrAdvData 0 0) 1
              (boot ∅))
    as (w' & Hrun & Hcr & _).
  - intros Hgate. discriminate Hgate.
  - reflexivity.
  - constructor.
  - by vm_compute.
  - by vm_compute.
  - lia.
  - exists w'. auto.
Defined.

Lemma late_response_writes_abandoned_destination_witness :
  exists w',
    run unanswered (AddService 1 2) 5 100 (boot ∅) = Some (BLE_STATUS_TIMEOUT, w')
    /\ mem (ble_core_client_handle_message unanswered
              (MSG_ID_BLE_GATTS_ADD_SERVICE_RSP BLE_STATUS_SUCCESS 12) w')
       = <[100 := ObjU16 12]> (mem w').
Proof.
  destruct (late_response_writes_abandoned_destination unanswered (AddService 1 2) 100
              1 5 (boot ∅))
    as (w' & Hrun & Hlate).
  - discriminate.
  - reflexivity.
  - intros i Hi. constructor.
  - intros i Hi. destruct i as [|i]; [by vm_compute | lia].
  - by vm_compute.
  - lia.
  - exists w'. split; [exact Hrun|]. by apply Hlate.
Defined.

Lemma responses_write_only_at_destination_witness :
  let w := set_sync_param 100 (boot (<[100 := ObjU16 0]> (<[200 := ObjU16 5]> ∅))) in
  mem (ble_core_client_handle_message unanswered
         (MSG_ID_BLE_GATTS_ADD_SERVICE_RSP BLE_STATUS_SUCCESS 12) w) !! 200
  = mem w !! 200.
Proof.
  intros w.
  apply (proj1 (responses_write_only_at_destination unanswered
                  (MSG_ID_BLE_GATTS_ADD_SERVICE_RSP BLE_STATUS_SUCCESS 12) w eq_refl
                  (or_intror (ex_intro _ (ObjU16 0) (conj eq_refl eq_refl))))).
  discriminate.
Defined.

Lemma dispatcher_keeps_registry_and_submits_nothing_witness :
  let w := set_callbacks 1 200 3 4 (boot ∅) in
  let w' := ble_core_client_handle_message unanswered
              (MSG_ID_BLE_GAP_WR_CONF_RSP (BLE_STATUS_REMOTE 9)) w in
  ble_client_gap_event_cb w' = 1
  /\ trace w' = [MsgFree (MSG_ID_BLE_GAP_WR_CONF_RSP (BLE_STATUS_REMOTE 9))].
Proof.
  intros w w'.
  destruct (dispatcher_keeps_registry_and_submits_nothing unanswered
              (MSG_ID_BLE_GAP_WR_CONF_RSP (BLE_STATUS_REMOTE 9)) w eq_refl)
    as (_ & Hcb & _ & _ & _ & _ & _ & Htr & _).
  split; [exact Hcb | exact Htr].
Defined.

Lemma stale_flag_is_cleared_before_submitting_witness :
  let w := set_connected true (boot ∅) in
  perform unanswered (OpDisconnect 19) 5 (set_sync_response 1 w)
  = perform unanswered (OpDisconnect 19) 5 w.
Proof.
  intros w.
  apply (proj1 (stale_flag_is_cleared_before_submitting unanswered (OpDisconnect 19) 5 1 w
                  0 0 0 0 (fun _ => eq_refl))).
Defined.

Lemma blocking_call_timeout_in_ticks_witness :
  exists w',
    perform unanswered (OpSetAttributeValue 1 2 3 4) 5 (boot ∅)
    = Some (BLE_STATUS_TIMEOUT, w')
    /\ clock_reads w' = 3%nat.
Proof.
  destruct (blocking_call_timeout_in_ticks unanswered (OpSetAttributeValue 1 2 3 4) 1 5
              (boot ∅))
    as (w' & Hrun & Hcr & _).
  - intros Hgate. discriminate Hgate.
  - reflexivity.
  - intros i Hi. constructor.
  - intros j Hj. destruct j as [|[|[|j]]]; [by vm_compute | by vm_compute | by vm_compute|].
    cbn in Hj. lia.
  - intros i Hi. destruct i as [|i]; [by vm_compute | lia].
  - by vm_compute.
  - lia.
  - exists w'. auto.
Defined.
